(** * solar_consumer.save_forecast: a shallow embedding and its properties

    The module persists solar generation and forecast tables for a few
    known sites.  It is glue between pandas frames handed in by the caller
    and a handful of collaborators (the site directory, the generation and
    forecast stores, the SQLAlchemy session, the file system, the clock).

    Embedding choices.
    - A pandas frame is a list of column labels and a list of rows.  The row
      index is not modelled: nothing in the module reads it.  Frames with
      repeated column labels are outside the embedding (label lookups below
      return the first match); statements about the contents of frames
      assume distinct labels.
    - A cell is an integer, a float (modelled by the rational it denotes), a
      string, a timestamp in nanoseconds since the epoch (with its
      tz-awareness flag) or a missing value: NaN in a column of numbers, NaT
      in a column of timestamps.  A column has the dtype pandas infers from
      its cells (numbers, timestamps, or object for strings); a column of
      dtype object that holds [None] is not represented.
    - What Python and pandas compute in a way that depends on rounding, on
      the text of a number or on the library's version is left to the
      backend: [total_seconds()] and the division of doubles, [int()] of a
      string, the message of the [KeyError] of a selection of columns.
    - Python exceptions are values of [exn]; a call returns [Ok] or [Raise].
    - The collaborators are a type class [Backend] over an arbitrary store
      state: every theorem below holds whatever they return or raise.
    - Every call to a collaborator that holds state (site directory, stores,
      session, file system, clock) is appended to [trace]; so is every entry
      into [get_or_create_pvsite], with the arguments it received.  Log
      records keep their level and their message template.
    - Frames owned by the caller live in [heap] and are passed by reference;
      frames built inside a function are not reachable from outside it and
      are threaded as values. *)

From Stdlib Require Import ZArith QArith Lia Ascii String.
From stdpp Require Import base gmap strings list.

Close Scope Q_scope.
Local Open Scope string_scope.
Local Open Scope list_scope.

(** ** Cells, frames, exceptions *)

Inductive cell :=
| CInt (z : Z)
| CFloat (q : Q)
| CStr (s : string)
| CTime (aware : bool) (ns : Z)
| CNull.

Record DataFrame := mkFrame { columns : list string; rows : list (list cell) }.

Inductive exn :=
| Exception (msg : string)
| ValueError (msg : string)
| KeyError (key : string)
| TypeError (msg : string)
| OtherError (name : string).

Inductive result (A : Type) :=
| Ok (a : A)
| Raise (e : exn).
Arguments Ok {A} a.
Arguments Raise {A} e.

Definition result_bind {A B} (r : result A) (f : A -> result B) : result B :=
  match r with Ok a => f a | Raise e => Raise e end.

Fixpoint result_mapM {A B} (f : A -> result B) (l : list A) : result (list B) :=
  match l with
  | [] => Ok []
  | x :: xs =>
      match f x with
      | Raise e => Raise e
      | Ok y => match result_mapM f xs with
                | Raise e => Raise e
                | Ok ys => Ok (y :: ys)
                end
      end
  end.

(** ** pandas operations used by the module *)

(** [DataFrame.empty]: true as soon as one of the two axes has length 0. *)
Definition df_empty (df : DataFrame) : bool :=
  match columns df, rows df with
  | [], _ => true
  | _, [] => true
  | _, _ => false
  end.

Fixpoint col_index (name : string) (cols : list string) : option nat :=
  match cols with
  | [] => None
  | c :: cs => if String.eqb c name then Some 0%nat
               else option_map S (col_index name cs)
  end.

(** [name in df.columns] *)
Definition has_column (name : string) (df : DataFrame) : bool :=
  match col_index name (columns df) with Some _ => true | None => false end.

Definition row_cell (i : nat) (r : list cell) : cell := nth i r CNull.

(** [df[name]] as the list of the column's cells. *)
Definition getitem (name : string) (df : DataFrame) : result (list cell) :=
  match col_index name (columns df) with
  | None => Raise (KeyError name)
  | Some i => Ok (map (row_cell i) (rows df))
  end.

(** Elementwise [series == s] for a string [s]. *)
Definition cell_eq_str (s : string) (c : cell) : bool :=
  match c with CStr s' => String.eqb s' s | _ => false end.

(** [df[df[name] == s]]: boolean-mask row selection. *)
Definition filter_eq (name s : string) (df : DataFrame) : result DataFrame :=
  match col_index name (columns df) with
  | None => Raise (KeyError name)
  | Some i =>
      Ok {| columns := columns df;
            rows := List.filter (fun r => cell_eq_str s (row_cell i r)) (rows df) |}
  end.

(** [df.rename(columns=mapping)]: labels absent from the mapping stay. *)
Fixpoint rename_label (mapping : list (string * string)) (c : string) : string :=
  match mapping with
  | [] => c
  | (old, new) :: rest => if String.eqb old c then new else rename_label rest c
  end.

Definition rename_columns (mapping : list (string * string)) (df : DataFrame) : DataFrame :=
  {| columns := map (rename_label mapping) (columns df); rows := rows df |}.

(** [df[[a; b; ...]]]: a new frame with exactly the listed columns.  When
    labels are missing pandas raises a [KeyError] whose message is built
    from the requested and the missing labels; the text is left to
    [not_in_index] (see [pd_not_in_index] below). *)
Definition select_columns (not_in_index : list string -> list string -> string)
    (names : list string) (df : DataFrame) : result DataFrame :=
  match result_mapM (fun n => match col_index n (columns df) with
                              | Some i => Ok i
                              | None => Raise (KeyError n)
                              end) names with
  | Ok idx => Ok {| columns := names;
                    rows := map (fun r => map (fun i => row_cell i r) idx) (rows df) |}
  | Raise _ =>
      Raise (KeyError (not_in_index names
               (List.filter (fun n => match col_index n (columns df) with
                                      | Some _ => false
                                      | None => true
                                      end) names)))
  end.

Fixpoint zip_with_cells (f : list cell -> cell -> list cell)
    (rs : list (list cell)) (cs : list cell) : list (list cell) :=
  match rs, cs with
  | r :: rs', c :: cs' => f r c :: zip_with_cells f rs' cs'
  | _, _ => []
  end.

(** [df[name] = values]: overwrite the column when the label exists, append
    it otherwise; pandas refuses values of another length. *)
Definition setitem (name : string) (values : list cell) (df : DataFrame) : result DataFrame :=
  if negb (length values =? length (rows df))%nat
  then Raise (ValueError "Length of values does not match length of index")
  else match col_index name (columns df) with
       | Some i => Ok {| columns := columns df;
                         rows := zip_with_cells (fun r c => <[i:=c]> r) (rows df) values |}
       | None => Ok {| columns := columns df ++ [name];
                       rows := zip_with_cells (fun r c => r ++ [c]) (rows df) values |}
       end.

(** [df[name] = scalar]: the scalar is broadcast to every row. *)
Definition setitem_scalar (name : string) (v : cell) (df : DataFrame) : DataFrame :=
  match col_index name (columns df) with
  | Some i => {| columns := columns df; rows := map (fun r => <[i:=v]> r) (rows df) |}
  | None => {| columns := columns df ++ [name]; rows := map (fun r => r ++ [v]) (rows df) |}
  end.

Fixpoint drop_positions {A} (keep : list bool) (r : list A) : list A :=
  match keep, r with
  | k :: ks, x :: xs => if k then x :: drop_positions ks xs else drop_positions ks xs
  | _, _ => []
  end.

(** [df.drop(columns=names, errors="ignore")]: labels that are absent are
    tolerated, every column carrying a listed label goes. *)
Definition drop_columns (names : list string) (df : DataFrame) : DataFrame :=
  let keep := map (fun c => negb (existsb (String.eqb c) names)) (columns df) in
  {| columns := drop_positions keep (columns df);
     rows := map (drop_positions keep) (rows df) |}.

(** *** Numeric reductions *)

Definition Qmaxq (a b : Q) : Q := if Qle_bool a b then b else a.

(** The maximum of a column of numbers with the default [skipna=True]: the
    largest numeric value, [None] (NaN) when every cell is missing,
    [TypeError] as soon as a string or a timestamp is among the cells (a
    comparison of a string with a number or with the filler of a missing
    value, or later [int()] of a timestamp). *)
Fixpoint numeric_max (cs : list cell) : result (option Q) :=
  match cs with
  | [] => Ok None
  | c :: cs' =>
      match numeric_max cs' with
      | Raise e => Raise e
      | Ok m =>
          match c with
          | CInt z => Ok (Some (match m with Some q => Qmaxq (inject_Z z) q | None => inject_Z z end))
          | CFloat q' => Ok (Some (match m with Some q => Qmaxq q' q | None => q' end))
          | CNull => Ok m
          | _ => Raise (TypeError "max")
          end
      end
  end.

(** The strings of a column that holds strings only. *)
Fixpoint string_cells (cs : list cell) : option (list string) :=
  match cs with
  | [] => Some []
  | CStr s :: cs' => option_map (cons s) (string_cells cs')
  | _ => None
  end.

(** The greater of two strings in Python's order (code points, which is
    the byte order of their encoding). *)
Definition str_max (a b : string) : string := if String.leb a b then b else a.

(** What [series.max()] returns: a number (or NaN), or a string. *)
Inductive maximum :=
| MaxNumber (m : option Q)
| MaxString (s : string).

(** [series.max()]: on a non-empty column of strings the greatest string,
    otherwise the numeric maximum. *)
Definition series_max (cs : list cell) : result maximum :=
  match string_cells cs with
  | Some (s :: ss) => Ok (MaxString (fold_left str_max ss s))
  | _ => result_bind (numeric_max cs) (fun m => Ok (MaxNumber m))
  end.

(** Python's [int(x)]: truncation toward zero on a number, NaN refused; a
    string is parsed, by [int_of_str] (see the collaborators below). *)
Definition py_int (int_of_str : string -> result Z) (m : maximum) : result Z :=
  match m with
  | MaxNumber (Some q) => Ok (Z.quot (Qnum q) (Z.pos (Qden q)))
  | MaxNumber None => Raise (ValueError "cannot convert float NaN to integer")
  | MaxString s => int_of_str s
  end.

(** *** Timestamps *)

Definition ns_per_minute : Z := 60 * 1000000000.
Definition quarter_hour_ns : Z := 15 * ns_per_minute.

(** [Timestamp.floor("15min")] on a UTC instant. *)
Definition floor_15min (t : Z) : Z := (t - t mod quarter_hour_ns)%Z.

(** [cell + pd.Timedelta(d)] *)
Definition add_timedelta (d : Z) (c : cell) : result cell :=
  match c with
  | CTime aware ns => Ok (CTime aware (ns + d))
  | CNull => Ok CNull
  | _ => Raise (TypeError "unsupported operand type(s) for +")
  end.

(** [(cell - ts).total_seconds() / 60] for a tz-aware [ts]: a tz-naive cell
    cannot be subtracted from; a missing start gives a missing horizon.  The
    difference is a count of nanoseconds; [total_seconds] is the double
    pandas makes of it and [truediv] the division of doubles (see
    [dt_total_seconds] and [float_truediv] below). *)
Definition minutes_since (total_seconds : Z -> Q) (truediv : Q -> Q -> Q)
    (ts : Z) (c : cell) : result cell :=
  match c with
  | CTime true ns => Ok (CFloat (truediv (total_seconds (ns - ts)%Z) (inject_Z 60)))
  | CTime false _ => Raise (TypeError "Cannot subtract tz-naive and tz-aware datetime-like objects")
  | CNull => Ok CNull
  | _ => Raise (TypeError "unsupported operand type(s) for -")
  end.

(** *** Paths *)

Fixpoint ends_with_slash (s : string) : bool :=
  match s with
  | EmptyString => false
  | String c EmptyString => Ascii.eqb c "/"%char
  | String _ rest => ends_with_slash rest
  end.

(** [os.path.join(a, b)] (posix) for a relative [b]. *)
Definition os_path_join (a b : string) : string :=
  if String.eqb a "" then b
  else if ends_with_slash a then a +:+ b
  else a +:+ "/" +:+ b.

(** ** Sites and the static registry *)

Record PVSite := mkPVSite {
  client_site_name : string; latitude : string; longitude : string }.

Record Site := mkSite {
  location_uuid : string;
  site_client_site_name : string;
  site_country : string;
  site_capacity_kw : Z }.

Record CreateArgs := mkCreateArgs {
  arg_latitude : string;
  arg_longitude : string;
  arg_client_site_name : string;
  arg_client_site_id : Z;
  arg_country : string;
  arg_capacity_kw : Z;
  arg_dno : string;
  arg_gsp : string }.

Record ForecastMeta := mkForecastMeta {
  meta_location_uuid : string;
  meta_timestamp_utc : Z;
  meta_forecast_version : string }.

(** Forecast objects of the bulk store are never inspected by the module. *)
Inductive forecast_obj := ForecastObj (id : nat).

Definition nl_national : PVSite := mkPVSite "nl_national" "52.15" "5.23".
Definition de_50hertz : PVSite := mkPVSite "50Hertz" "52.53" "13.37".
Definition de_amprion : PVSite := mkPVSite "Amprion" "51.52" "7.45".
Definition de_tennet : PVSite := mkPVSite "TenneT" "52.38" "5.17".
Definition de_transnetbw : PVSite := mkPVSite "TransnetBW" "48.78" "9.18".

(** A Python dict iterates in insertion order: an association list. *)
Definition DE_TSO_SITES : list (string * PVSite) :=
  [("TransnetBW", de_transnetbw); ("50Hertz", de_50hertz);
   ("TenneT", de_tennet); ("Amprion", de_amprion)].

Definition DE_TSO_CAPACITY : gmap string Z :=
  <["TransnetBW" := 10770000%Z]> (<["50Hertz" := 18175000%Z]>
  (<["TenneT" := 21882000%Z]> (<["Amprion" := 16506000%Z]> ∅))).

Definition dict_getitem (d : gmap string Z) (k : string) : result Z :=
  match d !! k with
  | Some v => Ok v
  | None => Raise (KeyError k)
  end.

(** ** Collaborators, the world and the effect monad *)

Inductive level := DEBUG | INFO | WARNING | ERROR.

(** What the module asks of the libraries it imports.  Each operation may
    change the store state and may raise; nothing is assumed about them. *)
Class Backend (St : Type) := {
  get_site_by_client_site_name : St -> string -> string -> St * result Site;
  create_site : St -> CreateArgs -> St * result Site;
  insert_generation_values : St -> DataFrame -> St * result unit;
  session_commit : St -> St * result unit;
  insert_forecast_values :
    St -> DataFrame -> ForecastMeta -> string -> string -> St * result unit;
  save : St -> list forecast_obj -> St * result unit;
  os_makedirs : St -> string -> bool -> St * result unit;
  to_csv : St -> string -> DataFrame -> bool -> St * result unit;
  timestamp_now_utc : St -> St * Z;
  pd_to_datetime : list cell -> result (list cell);
  (** Python's [int] on a string. *)
  int_of_str : string -> result Z;
  (** [Timedelta.total_seconds] of a count of nanoseconds: a double, given
      as the rational it denotes. *)
  dt_total_seconds : Z -> Q;
  (** [a / b] on doubles. *)
  float_truediv : Q -> Q -> Q;
  (** The message of the [KeyError] of [df[[labels]]], from the requested
      and the missing labels. *)
  pd_not_in_index : list string -> list string -> string }.

Inductive event :=
| CallGetOrCreate (pvsite : PVSite) (country : string) (capacity_override_kw : option Z)
| EvGetSite (client_site_name client_name : string)
| EvCreateSite (args : CreateArgs)
| EvInsertGeneration (df : DataFrame)
| EvCommit
| EvNow (t : Z)
| EvInsertForecast (df : DataFrame) (meta : ForecastMeta) (ml_model_name ml_model_version : string)
| EvSave (forecasts : list forecast_obj)
| EvMakedirs (path : string) (exist_ok : bool)
| EvToCsv (path : string) (df : DataFrame) (index : bool).

Record World (St : Type) := mkWorld {
  store : St;
  heap : gmap nat DataFrame;
  trace : list event;
  logs : list (level * string) }.
Arguments mkWorld {St}.
Arguments store {St}.
Arguments heap {St}.
Arguments trace {St}.
Arguments logs {St}.

#[global] Instance DataFrame_inhabited : Inhabited DataFrame := populate (mkFrame [] []).

Definition M (St A : Type) : Type := World St -> World St * result A.

Definition ret {St A} (a : A) : M St A := fun w => (w, Ok a).

Definition raise {St A} (e : exn) : M St A := fun w => (w, Raise e).

Definition bind {St A B} (m : M St A) (k : A -> M St B) : M St B :=
  fun w => match m w with
           | (w', Ok a) => k a w'
           | (w', Raise e) => (w', Raise e)
           end.

Notation "x <- m ;; k" := (bind m (fun x => k))
  (at level 100, m at next level, right associativity).
Notation "m ;; k" := (bind m (fun _ => k))
  (at level 100, right associativity).

Definition lift {St A} (r : result A) : M St A := fun w => (w, r).

(** [try: body  except Exception as e: handler e] *)
Definition try_except {St A} (body : M St A) (handler : exn -> M St A) : M St A :=
  fun w => match body w with
           | (w', Ok a) => (w', Ok a)
           | (w', Raise e) => handler e w'
           end.

(** [for x in l: body x]; a [continue] is a body that returns early. *)
Fixpoint for_each {St A} (l : list A) (body : A -> M St unit) : M St unit :=
  match l with
  | [] => ret tt
  | x :: xs => body x ;; for_each xs body
  end.

Definition log {St} (lvl : level) (msg : string) : M St unit :=
  fun w => (mkWorld (store w) (heap w) (trace w) (logs w ++ [(lvl, msg)]), Ok tt).

Definition emit {St} (ev : event) : M St unit :=
  fun w => (mkWorld (store w) (heap w) (trace w ++ [ev]) (logs w), Ok tt).

(** A call to a collaborator: recorded, then run on the store. *)
Definition call {St A} (ev : event) (op : St -> St * result A) : M St A :=
  fun w => let '(s, r) := op (store w) in
           (mkWorld s (heap w) (trace w ++ [ev]) (logs w), r).

Definition deref {St} (l : nat) : M St DataFrame :=
  fun w => (w, Ok (heap w !!! l)).

(** An [inplace=True] operation on the frame behind a reference. *)
Definition update_frame {St} (l : nat) (f : DataFrame -> DataFrame) : M St unit :=
  fun w => (mkWorld (store w) (<[l := f (heap w !!! l)]> (heap w)) (trace w) (logs w), Ok tt).

(** ** The module *)

(** Lines 43-49 of [get_or_create_pvsite]: the capacity of a site about to
    be created.  [DE_TSO_CAPACITY[...]] raises [KeyError] on an unknown name. *)
Definition choose_capacity (pvsite : PVSite) (country : string)
    (capacity_override_kw : option Z) : result Z :=
  match capacity_override_kw with
  | Some c => Ok c
  | None =>
      if String.eqb country "de"
      then dict_getitem DE_TSO_CAPACITY (client_site_name pvsite)
      else Ok 20000000%Z
  end.

(** Lines 51-61: the keyword arguments handed to [create_site]. *)
Definition create_site_args (pvsite : PVSite) (country : string) (capacity : Z) : CreateArgs :=
  {| arg_latitude := latitude pvsite;
     arg_longitude := longitude pvsite;
     arg_client_site_name := client_site_name pvsite;
     arg_client_site_id := 1;
     arg_country := country;
     arg_capacity_kw := capacity;
     arg_dno := "";
     arg_gsp := "" |}.

(** Lines 176-183 of [save_forecasts_to_site_db]: narrow the renamed frame
    to its two retained columns, then derive [end_utc] and
    [horizon_minutes] from [start_utc] and the issuance timestamp. *)
Definition reshape_forecast {St} `{Backend St} (timestamp_utc : Z) (renamed : DataFrame)
    : result DataFrame :=
  result_bind (select_columns pd_not_in_index ["forecast_power_kw"; "start_utc"] renamed)
    (fun narrowed =>
  result_bind (getitem "start_utc" narrowed) (fun start =>
  result_bind (result_mapM (add_timedelta quarter_hour_ns) start) (fun end_utc =>
  result_bind (setitem "end_utc" end_utc narrowed) (fun with_end =>
  result_bind (getitem "start_utc" with_end) (fun start' =>
  result_bind (result_mapM (minutes_since dt_total_seconds float_truediv timestamp_utc) start')
    (fun horizon =>
  setitem "horizon_minutes" horizon with_end)))))).

Section SaveForecast.
Context {St : Type} `{Backend St}.

Definition now_utc : M St Z :=
  fun w => let '(s, t) := timestamp_now_utc (store w) in
           (mkWorld s (heap w) (trace w ++ [EvNow t]) (logs w), Ok t).

Definition get_or_create_pvsite (pvsite : PVSite) (country : string)
    (capacity_override_kw : option Z) : M St Site :=
  emit (CallGetOrCreate pvsite country capacity_override_kw) ;;
  try_except
    (call (EvGetSite (client_site_name pvsite) (client_site_name pvsite))
       (fun s => get_site_by_client_site_name s
                   (client_site_name pvsite) (client_site_name pvsite)))
    (fun _ =>
       log INFO "Creating site {pvsite.client_site_name} in the database." ;;
       capacity <- lift (choose_capacity pvsite country capacity_override_kw) ;;
       let args := create_site_args pvsite country capacity in
       call (EvCreateSite args) (fun s => create_site s args)).

Definition generation_renames : list (string * string) :=
  [("solar_generation_kw", "power_kw"); ("target_datetime_utc", "start_utc")].

(** Lines 120-128: rename the two domain columns, coerce [start_utc] with
    [pd.to_datetime], stamp every row with the site's identifier. *)
Definition prepare_generation (site : Site) (generation_data_tso_df : DataFrame)
    : result DataFrame :=
  let renamed := rename_columns generation_renames generation_data_tso_df in
  result_bind (getitem "start_utc" renamed) (fun start =>
  result_bind (pd_to_datetime start) (fun start_dt =>
  result_bind (setitem "start_utc" start_dt renamed) (fun with_start =>
  Ok (setitem_scalar "site_uuid" (CStr (location_uuid site)) with_start)))).

(** Body of the per-site loop of [save_generation_to_site_db]. *)
Definition save_generation_site (generation_data : DataFrame) (country : string)
    (capacity_override : option Z) (item : string * PVSite) : M St unit :=
  let '(tso, pvsite) := item in
  generation_data_tso_df <-
    (if String.eqb country "de"
     then lift (filter_eq "tso_zone" tso generation_data)
     else ret generation_data) ;;
  if df_empty generation_data_tso_df
  then log DEBUG "No rows for TSO {tso!r}, skipping"
  else
    site <- get_or_create_pvsite pvsite country capacity_override ;;
    prepared <- lift (prepare_generation site generation_data_tso_df) ;;
    call (EvInsertGeneration prepared) (fun s => insert_generation_values s prepared) ;;
    call EvCommit session_commit ;;
    log INFO "Successfully saved {len(generation_data_tso_df)} rows".

Definition capacity_override_of (generation_data : DataFrame) : result (option Z) :=
  if has_column "capacity_kw" generation_data
  then result_bind (getitem "capacity_kw" generation_data) (fun col =>
       result_bind (series_max col) (fun m =>
       result_bind (py_int int_of_str m) (fun c => Ok (Some c))))
  else Ok None.

(** The message of lines 93-94; the backslash-continued literal keeps the
    indentation of its second line. *)
Definition unsupported_generation_country : string :=
  "Only generation data from the following countries is supported             when saving: 'nl', 'de'".

Definition unsupported_forecast_country : string :=
  "Only NL forecast data is supported when saving (atm).".

(** Lines 87-94: the sites of a country, or the input error. *)
Definition country_sites_of (country : string) : result (list (string * PVSite)) :=
  if String.eqb country "nl" then Ok [("nl_national", nl_national)]
  else if String.eqb country "de" then Ok DE_TSO_SITES
  else Raise (Exception unsupported_generation_country).

Definition save_generation_to_site_db (generation_data : nat) (country : string) : M St unit :=
  df <- deref generation_data ;;
  if df_empty df
  then log WARNING "No generation data provided to save!"
  else
    country_sites <- lift (country_sites_of country) ;;
    capacity_override <- lift (capacity_override_of df) ;;
    for_each country_sites (save_generation_site df country capacity_override).

Definition forecast_renames : list (string * string) :=
  [("solar_generation_kw", "forecast_power_kw"); ("target_datetime_utc", "start_utc")].

Definition save_forecasts_to_site_db (forecast_data : nat)
    (model_tag model_version country : string) : M St unit :=
  if negb (String.eqb country "nl")
  then raise (Exception unsupported_forecast_country)
  else
    site <- get_or_create_pvsite nl_national country None ;;
    now <- now_utc ;;
    let timestamp_utc := floor_15min now in
    let forecast_meta := {| meta_location_uuid := location_uuid site;
                            meta_timestamp_utc := timestamp_utc;
                            meta_forecast_version := model_version |} in
    update_frame forecast_data (rename_columns forecast_renames) ;;
    renamed <- deref forecast_data ;;
    values <- lift (reshape_forecast timestamp_utc renamed) ;;
    call (EvInsertForecast values forecast_meta model_tag model_version)
      (fun s => insert_forecast_values s values forecast_meta model_tag model_version).

Definition save_forecasts_to_db (forecasts : list forecast_obj) : M St unit :=
  match forecasts with
  | [] => log WARNING "No forecasts provided to save!"
  | _ =>
      try_except
        (log INFO "Saving forecasts to the database." ;;
         call (EvSave forecasts) (fun s => save s forecasts) ;;
         log INFO "Successfully saved {len(forecasts)} forecasts to the database.")
        (fun e => log ERROR "An error occurred while saving forecasts: {e}" ;; raise e)
  end.

(** [not csv_dir]: [None] and the empty string are both falsy. *)
Definition falsy (csv_dir : option string) : bool :=
  match csv_dir with
  | None => true
  | Some d => String.eqb d ""
  end.

Definition save_forecasts_to_csv (forecasts : nat) (csv_dir : option string) : M St unit :=
  df <- deref forecasts ;;
  if df_empty df
  then log WARNING "No forecasts provided to save!"
  else if falsy csv_dir
  then raise (ValueError "CSV directory is not provided for CSV saving.")
  else
    let dir := default "" csv_dir in
    call (EvMakedirs dir true) (fun s => os_makedirs s dir true) ;;
    let csv_path := os_path_join dir "forecast_data.csv" in
    try_except
      (update_frame forecasts (drop_columns ["_sa_instance_state"]) ;;
       log INFO "Saving forecasts to CSV at {csv_path}" ;;
       current <- deref forecasts ;;
       call (EvToCsv csv_path current false) (fun s => to_csv s csv_path current false) ;;
       log INFO "Successfully saved {len(forecasts)} forecasts to CSV.")
      (fun e => log ERROR "An error occurred while saving forecasts to CSV: {e}" ;; raise e).

End SaveForecast.

(** ** A reference backend

    A small in-memory realisation of the collaborators, used to run the
    module on concrete inputs: the site directory is a list searched by
    client site name, creation appends to it, the stores and the file
    system record what they are given, the clock is a fixed reading. *)

Module Reference.

Record RefStore := mkRef {
  ref_sites : list Site;
  ref_clock : Z;
  ref_generation : list DataFrame;
  ref_committed : nat;
  ref_files : list (string * DataFrame) }.

Definition find_site (name : string) (sites : list Site) : option Site :=
  List.find (fun s => String.eqb (site_client_site_name s) name) sites.

Definition ref_to_datetime (c : cell) : result cell :=
  match c with
  | CTime aware ns => Ok (CTime aware ns)
  | CInt z => Ok (CTime false z)
  | CNull => Ok CNull
  | _ => Raise (ValueError "Unknown datetime string format")
  end.

(** The value of a run of ASCII digits. *)
Fixpoint digits_value (acc : Z) (s : string) : option Z :=
  match s with
  | EmptyString => Some acc
  | String c rest =>
      let n := Z.of_nat (Ascii.nat_of_ascii c) in
      if ((48 <=? n) && (n <=? 57))%Z
      then digits_value (10 * acc + (n - 48)) rest
      else None
  end.

(** [int(s)] on the strings made of an optional sign and ASCII digits; the
    reference backend refuses every other string (Python accepts a few
    more: blanks around the number, underscores between digits). *)
Definition ref_int_of_str (s : string) : result Z :=
  let invalid := Raise (ValueError "invalid literal for int() with base 10") in
  match s with
  | EmptyString => invalid
  | String "-" (String c rest) =>
      match digits_value 0 (String c rest) with
      | Some z => Ok (- z)%Z
      | None => invalid
      end
  | String "+" (String c rest) =>
      match digits_value 0 (String c rest) with
      | Some z => Ok z
      | None => invalid
      end
  | _ => match digits_value 0 s with
         | Some z => Ok z
         | None => invalid
         end
  end.

(** The messages of pandas 2 for a list of labels of which some, or all,
    are missing. *)
Definition quoted_labels (labels : list string) : string :=
  String.concat ", " (map (fun l => "'" +:+ l +:+ "'") labels).

Definition ref_not_in_index (requested missing : list string) : string :=
  if (length missing =? length requested)%nat
  then "None of [Index([" +:+ quoted_labels requested +:+
       "], dtype='object')] are in the [columns]"
  else "[" +:+ quoted_labels missing +:+ "] not in index".

#[global] Instance ref_backend : Backend RefStore := {|
  get_site_by_client_site_name s name _ :=
    (s, match find_site name (ref_sites s) with
        | Some site => Ok site
        | None => Raise (Exception "No site found")
        end);
  create_site s args :=
    let site := mkSite ("uuid-" +:+ arg_client_site_name args)
                  (arg_client_site_name args) (arg_country args) (arg_capacity_kw args) in
    (mkRef (ref_sites s ++ [site]) (ref_clock s) (ref_generation s)
       (ref_committed s) (ref_files s), Ok site);
  insert_generation_values s df :=
    (mkRef (ref_sites s) (ref_clock s) (ref_generation s ++ [df])
       (ref_committed s) (ref_files s), Ok tt);
  session_commit s :=
    (mkRef (ref_sites s) (ref_clock s) (ref_generation s)
       (S (ref_committed s)) (ref_files s), Ok tt);
  insert_forecast_values s df _ _ _ := (s, Ok tt);
  save s _ := (s, Ok tt);
  os_makedirs s _ _ := (s, Ok tt);
  to_csv s path df _ :=
    (mkRef (ref_sites s) (ref_clock s) (ref_generation s)
       (ref_committed s) (ref_files s ++ [(path, df)]), Ok tt);
  timestamp_now_utc s := (s, ref_clock s);
  pd_to_datetime := result_mapM ref_to_datetime;
  int_of_str := ref_int_of_str;
  dt_total_seconds d := Qmake d 1000000000;
  float_truediv := Qdiv;
  pd_not_in_index := ref_not_in_index |}.

Definition empty_store (clock : Z) : RefStore := mkRef [] clock [] 0 [].

(** A world holding one caller-owned frame at reference 0. *)
Definition world_with (df : DataFrame) (clock : Z) : World RefStore :=
  mkWorld (empty_store clock) (<[0%nat := df]> ∅) [] [].

(** Sample tables. *)
Definition sample_forecast : DataFrame :=
  mkFrame ["solar_generation_kw"; "target_datetime_utc"; "_sa_instance_state"]
    [ [CFloat (5 # 2); CTime true 1800000000000; CStr "a"];
      [CFloat (1 # 2); CTime true 2000; CStr "b"] ].

(** What the forecast store receives for [sample_forecast] at clock reading
    1,000,000,000,000 ns. *)
Definition sample_forecast_values : DataFrame :=
  mkFrame ["forecast_power_kw"; "start_utc"; "end_utc"; "horizon_minutes"]
    [ [CFloat (5 # 2); CTime true 1800000000000; CTime true 2700000000000;
       CFloat (900000000000 # 60000000000)];
      [CFloat (1 # 2); CTime true 2000; CTime true 900000002000;
       CFloat (-899999998000 # 60000000000)] ].



Definition sample_forecast_meta : ForecastMeta :=
  mkForecastMeta "uuid-nl_national" 900000000000 "1.0".

Definition sample_missing_capacity : DataFrame :=
  mkFrame ["solar_generation_kw"; "target_datetime_utc"; "capacity_kw"]
    [ [CFloat (5 # 2); CTime true 1000; CNull];
      [CFloat (1 # 2); CTime true 2000; CNull] ].

Definition sample_csv : DataFrame :=
  mkFrame ["_sa_instance_state"; "forecast_power_kw"] [[CStr "state"; CInt 3]].

Definition sample_generation_de : DataFrame :=
  mkFrame ["solar_generation_kw"; "target_datetime_utc"; "tso_zone"; "capacity_kw"]
    [ [CFloat (5 # 2); CTime true 1000; CStr "TenneT"; CInt 7];
      [CFloat (1 # 2); CTime true 2000; CStr "Elsewhere"; CInt 99];
      [CFloat (3 # 2); CTime true 3000; CStr "Amprion"; CInt 5] ].


End Reference.

(** ** A backend with a failing file system

    The directory can be created or not, according to the store; writing a
    file always fails.  The other collaborators behave as in the reference
    backend of an empty directory. *)

Module Faulty.

Record FaultStore := mkFault { dir_creatable : bool }.

#[global] Instance faulty_backend : Backend FaultStore := {|
  get_site_by_client_site_name s _ _ := (s, Raise (Exception "No site found"));
  create_site s args :=
    (s, Ok (mkSite ("uuid-" +:+ arg_client_site_name args)
              (arg_client_site_name args) (arg_country args) (arg_capacity_kw args)));
  insert_generation_values s _ := (s, Ok tt);
  session_commit s := (s, Ok tt);
  insert_forecast_values s _ _ _ _ := (s, Ok tt);
  save s _ := (s, Raise (OtherError "IntegrityError"));
  os_makedirs s _ _ :=
    (s, if dir_creatable s then Ok tt else Raise (OtherError "PermissionError"));
  to_csv s _ _ _ := (s, Raise (OtherError "OSError"));
  timestamp_now_utc s := (s, 0%Z);
  pd_to_datetime := result_mapM Reference.ref_to_datetime;
  int_of_str := Reference.ref_int_of_str;
  dt_total_seconds d := Qmake d 1000000000;
  float_truediv := Qdiv;
  pd_not_in_index := Reference.ref_not_in_index |}.

Definition world_with (df : DataFrame) (creatable : bool) : World FaultStore :=
  mkWorld (mkFault creatable) (<[0%nat := df]> ∅) [] [].

End Faulty.

(** ** Observations on runs *)

(** The events a run added to the trace. *)
Definition new_events {St} (w w' : World St) : list event :=
  drop (length (trace w)) (trace w').

(** Every event a computation adds to the trace satisfies [P]. *)
Definition emits {St A} (P : event -> Prop) (m : M St A) : Prop :=
  forall w, exists evs, trace (m w).1 = trace w ++ evs /\ Forall P evs.

(** Nothing but the log changed between two worlds. *)
Definition only_logged {St} (w w' : World St) : Prop :=
  store w' = store w /\ heap w' = heap w /\ trace w' = trace w.

(** The site an event of the site directory is about. *)
Definition event_site (ev : event) : option string :=
  match ev with
  | CallGetOrCreate pv _ _ => Some (client_site_name pv)
  | EvGetSite name _ => Some name
  | EvCreateSite args => Some (arg_client_site_name args)
  | _ => None
  end.



Definition DE_TSO_NAMES : list string := map fst DE_TSO_SITES.

(** The frame the loop of [save_generation_to_site_db] works on for one
    site (lines 106-110). *)
Definition bucket_of (country tso : string) (df : DataFrame) : result DataFrame :=
  if String.eqb country "de" then filter_eq "tso_zone" tso df else Ok df.




(** One row of the table handed to the forecast store, from the row of the
    renamed table: power, start, end, horizon. *)
Definition reshaped_row {St} `{Backend St} (ts : Z) (ip i : nat)
    (rin rout : list cell) : Prop :=
  exists e h,
    add_timedelta quarter_hour_ns (row_cell i rin) = Ok e /\
    minutes_since dt_total_seconds float_truediv ts (row_cell i rin) = Ok h /\
    rout = [row_cell ip rin; row_cell i rin; e; h].

(** The frames of the caller are left as they were. *)
Definition keeps_heap {St A} (m : M St A) : Prop :=
  forall w, heap (m w).1 = heap w.

(** The steps of generation save that matter for what ends up stored: a
    site resolution, an insert of so many rows, a commit. *)
Inductive step :=
| SResolve (pvsite : PVSite) (country : string) (capacity_override_kw : option Z)
| SInsert (nrows : nat)
| SCommit.

Definition step_of (ev : event) : option step :=
  match ev with
  | CallGetOrCreate pv country ov => Some (SResolve pv country ov)
  | EvInsertGeneration d => Some (SInsert (length (rows d)))
  | EvCommit => Some SCommit
  | _ => None
  end.

Definition steps (evs : list event) : list step := omap step_of evs.

(** The steps a complete turn of the loop takes for one site: none when its
    bucket is empty (or cannot be built), else resolve, insert the bucket's
    rows, commit. *)
Definition site_plan (country : string) (ov : option Z) (df : DataFrame)
    (item : string * PVSite) : list step :=
  match bucket_of country item.1 df with
  | Ok b => if df_empty b then []
            else [SResolve item.2 country ov; SInsert (length (rows b)); SCommit]
  | Raise _ => []
  end.

Definition generation_plan (country : string) (ov : option Z) (df : DataFrame)
    (sites : list (string * PVSite)) : list step :=
  flat_map (site_plan country ov df) sites.

Definition plan_rows (p : list step) : nat :=
  list_sum (map (fun st => match st with SInsert n => n | _ => 0%nat end) p).

(** The number of rows handed to the generation store. *)
Definition rows_inserted (evs : list event) : nat :=
  list_sum (map (fun ev => match ev with
                           | EvInsertGeneration d => length (rows d)
                           | _ => 0%nat
                           end) evs).

(** The row's zone tag, read at position [i], is one of the known names. *)
Definition known_zone (i : nat) (r : list cell) : bool :=
  existsb (fun tso => cell_eq_str tso (row_cell i r)) DE_TSO_NAMES.

(** The collaborators an event belongs to. *)
Definition is_directory_event (ev : event) : Prop :=
  match ev with
  | CallGetOrCreate _ _ _ | EvGetSite _ _ | EvCreateSite _ => True
  | _ => False
  end.

Definition is_generation_store_event (ev : event) : Prop :=
  match ev with EvInsertGeneration _ | EvCommit => True | _ => False end.

Definition is_forecast_store_event (ev : event) : Prop :=
  match ev with EvNow _ | EvInsertForecast _ _ _ _ => True | _ => False end.

Definition is_file_event (ev : event) : Prop :=
  match ev with EvMakedirs _ _ | EvToCsv _ _ _ => True | _ => False end.

Definition rectangular (df : DataFrame) : Prop :=
  Forall (fun r => length r = length (columns df)) (rows df).


(** ** Generic facts about the effect monad *)

Section MonadFacts.
Context {St : Type}.

Lemma new_events_app (w w' : World St) evs :
  trace w' = trace w ++ evs -> new_events w w' = evs.
Proof.
  intros E. unfold new_events. rewrite E. apply drop_app_length.
Qed.

Lemma new_events_mk (w : World St) s h evs lg :
  new_events w (mkWorld s h (trace w ++ evs) lg) = evs.
Proof. now apply new_events_app. Qed.

Lemma only_logged_new_events (w w' : World St) :
  only_logged w w' -> new_events w w' = [].
Proof.
  intros (_ & _ & E). apply new_events_app. rewrite E. symmetry. apply app_nil_r.
Qed.

Lemma emits_weaken {A} (P Q : event -> Prop) (m : M St A) :
  (forall ev, P ev -> Q ev) -> emits P m -> emits Q m.
Proof.
  intros PQ Hm w. destruct (Hm w) as (evs & E & F).
  exists evs. split; [exact E|]. eapply Forall_impl; eauto.
Qed.

Lemma emits_ret {A} P (a : A) : emits P (@ret St A a).
Proof. intros w. exists []. simpl. rewrite app_nil_r. auto. Qed.

Lemma emits_raise {A} P e : emits P (@raise St A e).
Proof. intros w. exists []. simpl. rewrite app_nil_r. auto. Qed.

Lemma emits_lift {A} P (r : result A) : emits P (@lift St A r).
Proof. intros w. exists []. simpl. rewrite app_nil_r. auto. Qed.

Lemma emits_log P lvl msg : emits P (@log St lvl msg).
Proof. intros w. exists []. simpl. rewrite app_nil_r. auto. Qed.

Lemma emits_deref P l : emits P (@deref St l).
Proof. intros w. exists []. simpl. rewrite app_nil_r. auto. Qed.

Lemma emits_update_frame P l f : emits P (@update_frame St l f).
Proof. intros w. exists []. simpl. rewrite app_nil_r. auto. Qed.

Lemma emits_emit (P : event -> Prop) ev : P ev -> emits P (@emit St ev).
Proof. intros Hev w. exists [ev]. simpl. auto. Qed.

Lemma emits_call {A} (P : event -> Prop) ev (op : St -> St * result A) :
  P ev -> emits P (call ev op).
Proof.
  intros Hev w. exists [ev]. unfold call.
  destruct (op (store w)) as [s r]. simpl. auto.
Qed.

Lemma emits_bind {A B} P (m : M St A) (k : A -> M St B) :
  emits P m -> (forall a, emits P (k a)) -> emits P (bind m k).
Proof.
  intros Hm Hk w. unfold bind.
  destruct (Hm w) as (evs & E & F).
  destruct (m w) as [w1 [a|e]]; simpl in *.
  - destruct (Hk a w1) as (evs2 & E2 & F2).
    exists (evs ++ evs2). rewrite E2, E, app_assoc. split; [reflexivity|].
    apply Forall_app; auto.
  - exists evs. auto.
Qed.

Lemma emits_try_except {A} P (m : M St A) (h : exn -> M St A) :
  emits P m -> (forall e, emits P (h e)) -> emits P (try_except m h).
Proof.
  intros Hm Hh w. unfold try_except.
  destruct (Hm w) as (evs & E & F).
  destruct (m w) as [w1 [a|e]]; simpl in *.
  - exists evs. auto.
  - destruct (Hh e w1) as (evs2 & E2 & F2).
    exists (evs ++ evs2). rewrite E2, E, app_assoc. split; [reflexivity|].
    apply Forall_app; auto.
Qed.

Lemma emits_for_each {A} P (l : list A) (body : A -> M St unit) :
  (forall x, In x l -> emits P (body x)) -> emits P (for_each l body).
Proof.
  induction l as [|x xs IH]; intros Hbody; simpl.
  - apply emits_ret.
  - apply emits_bind.
    + apply Hbody. now left.
    + intros _. apply IH. intros y Hy. apply Hbody. now right.
Qed.

Lemma emits_new_events {A} P (m : M St A) w :
  emits P m -> Forall P (new_events w (m w).1).
Proof.
  intros Hm. destruct (Hm w) as (evs & E & F).
  now rewrite (new_events_app _ _ _ E).
Qed.

End MonadFacts.

(** ** Site resolution *)

Section SiteResolution.
Context {St : Type} `{Backend St}.

(** The run of [get_or_create_pvsite], spelled out on the lookup's and the
    capacity rule's outcomes. *)
Lemma get_or_create_run pv country ov (w : World St) :
  get_or_create_pvsite pv country ov w =
  let name := client_site_name pv in
  let seen := trace w ++ [CallGetOrCreate pv country ov; EvGetSite name name] in
  let info := logs w ++ [(INFO, "Creating site {pvsite.client_site_name} in the database.")] in
  match get_site_by_client_site_name (store w) name name with
  | (s1, Ok site) => (mkWorld s1 (heap w) seen (logs w), Ok site)
  | (s1, Raise _) =>
      match choose_capacity pv country ov with
      | Raise e => (mkWorld s1 (heap w) seen info, Raise e)
      | Ok capacity =>
          let args := create_site_args pv country capacity in
          (mkWorld (create_site s1 args).1 (heap w) (seen ++ [EvCreateSite args]) info,
           (create_site s1 args).2)
      end
  end.
Proof.
  unfold get_or_create_pvsite, bind, try_except, emit, call, log, lift. simpl.
  destruct (get_site_by_client_site_name _ _ _) as [s1 [site|e]]; simpl.
  - now rewrite <- app_assoc.
  - destruct (choose_capacity pv country ov) as [capacity|e']; simpl.
    + destruct (create_site s1 _) as [s2 r]; simpl.
      now rewrite <- !app_assoc.
    + now rewrite <- app_assoc.
Qed.

Lemma get_or_create_found pv country ov (w : World St) s1 site :
  get_site_by_client_site_name (store w) (client_site_name pv) (client_site_name pv)
    = (s1, Ok site) ->
  get_or_create_pvsite pv country ov w =
  (mkWorld s1 (heap w)
     (trace w ++ [CallGetOrCreate pv country ov;
                  EvGetSite (client_site_name pv) (client_site_name pv)])
     (logs w), Ok site).
Proof. intros E. rewrite get_or_create_run. cbv zeta. now rewrite E. Qed.

Lemma get_or_create_created pv country ov (w : World St) s1 e capacity :
  get_site_by_client_site_name (store w) (client_site_name pv) (client_site_name pv)
    = (s1, Raise e) ->
  choose_capacity pv country ov = Ok capacity ->
  get_or_create_pvsite pv country ov w =
  (mkWorld (create_site s1 (create_site_args pv country capacity)).1 (heap w)
     (trace w ++ [CallGetOrCreate pv country ov;
                  EvGetSite (client_site_name pv) (client_site_name pv);
                  EvCreateSite (create_site_args pv country capacity)])
     (logs w ++ [(INFO, "Creating site {pvsite.client_site_name} in the database.")]),
   (create_site s1 (create_site_args pv country capacity)).2).
Proof.
  intros E C. rewrite get_or_create_run. cbv zeta. rewrite E, C.
  now rewrite <- app_assoc.
Qed.

Lemma get_or_create_unresolved pv country ov (w : World St) s1 e e' :
  get_site_by_client_site_name (store w) (client_site_name pv) (client_site_name pv)
    = (s1, Raise e) ->
  choose_capacity pv country ov = Raise e' ->
  get_or_create_pvsite pv country ov w =
  (mkWorld s1 (heap w)
     (trace w ++ [CallGetOrCreate pv country ov;
                  EvGetSite (client_site_name pv) (client_site_name pv)])
     (logs w ++ [(INFO, "Creating site {pvsite.client_site_name} in the database.")]),
   Raise e').
Proof. intros E C. rewrite get_or_create_run. cbv zeta. now rewrite E, C. Qed.

Lemma get_or_create_heap pv country ov (w : World St) :
  heap (get_or_create_pvsite pv country ov w).1 = heap w.
Proof.
  rewrite get_or_create_run. simpl.
  destruct (get_site_by_client_site_name _ _ _) as [s1 [site|e]]; simpl; [reflexivity|].
  destruct (choose_capacity pv country ov); reflexivity.
Qed.

(** The events of one resolution all satisfy [P] as soon as the three
    possible ones do. *)
Lemma get_or_create_emits (P : event -> Prop) pv country ov :
  P (CallGetOrCreate pv country ov) ->
  P (EvGetSite (client_site_name pv) (client_site_name pv)) ->
  (forall capacity, choose_capacity pv country ov = Ok capacity ->
     P (EvCreateSite (create_site_args pv country capacity))) ->
  emits P (get_or_create_pvsite (St := St) pv country ov).
Proof.
  intros Hc Hg Hn w. rewrite get_or_create_run. simpl.
  destruct (get_site_by_client_site_name _ _ _) as [s1 [site|e]]; simpl.
  - eexists. split; [reflexivity|]. auto.
  - destruct (choose_capacity pv country ov) as [capacity|e'] eqn:E; simpl.
    + eexists. split; [rewrite <- app_assoc; reflexivity|]. simpl. auto.
    + eexists. split; [reflexivity|]. auto.
Qed.

Lemma choose_capacity_cases pv country ov capacity :
  choose_capacity pv country ov = Ok capacity ->
  match ov with
  | Some c => capacity = c
  | None =>
      if String.eqb country "de"
      then DE_TSO_CAPACITY !! client_site_name pv = Some capacity
      else capacity = 20000000%Z
  end.
Proof.
  unfold choose_capacity, dict_getitem. destruct ov as [c|].
  - congruence.
  - destruct (String.eqb country "de").
    + destruct (DE_TSO_CAPACITY !! client_site_name pv); congruence.
    + congruence.
Qed.

End SiteResolution.

(** ** Runs of the public operations *)

Section Runs.
Context {St : Type} `{Backend St}.

Lemma save_generation_empty l country (w : World St) :
  df_empty (heap w !!! l) = true ->
  save_generation_to_site_db l country w =
  (mkWorld (store w) (heap w) (trace w)
     (logs w ++ [(WARNING, "No generation data provided to save!")]), Ok tt).
Proof.
  intros E. unfold save_generation_to_site_db, bind, deref. now rewrite E.
Qed.

Lemma save_generation_unsupported l country (w : World St) :
  df_empty (heap w !!! l) = false -> country <> "nl" -> country <> "de" ->
  save_generation_to_site_db l country w = (w, Raise (Exception unsupported_generation_country)).
Proof.
  intros E Hnl Hde. unfold save_generation_to_site_db, bind, deref, country_sites_of, lift.
  rewrite E. apply String.eqb_neq in Hnl, Hde. now rewrite Hnl, Hde.
Qed.

Lemma save_forecasts_unsupported l tag ver country (w : World St) :
  country <> "nl" ->
  save_forecasts_to_site_db l tag ver country w = (w, Raise (Exception unsupported_forecast_country)).
Proof.
  intros Hnl. unfold save_forecasts_to_site_db.
  apply String.eqb_neq in Hnl. now rewrite Hnl.
Qed.

(** The run of the forecast-table save for the one accepted country. *)
Lemma save_forecasts_run l tag ver (w : World St) :
  save_forecasts_to_site_db l tag ver "nl" w =
  let resolved := get_or_create_pvsite nl_national "nl" None w in
  match resolved.2 with
  | Raise e => (resolved.1, Raise e)
  | Ok site =>
      let clock := timestamp_now_utc (store resolved.1) in
      let ts := floor_15min clock.2 in
      let renamed := rename_columns forecast_renames (heap w !!! l) in
      let meta := mkForecastMeta (location_uuid site) ts ver in
      let hp := <[l := renamed]> (heap w) in
      match reshape_forecast ts renamed with
      | Raise e =>
          (mkWorld clock.1 hp (trace resolved.1 ++ [EvNow clock.2]) (logs resolved.1), Raise e)
      | Ok values =>
          let ins := insert_forecast_values clock.1 values meta tag ver in
          (mkWorld ins.1 hp
             (trace resolved.1 ++ [EvNow clock.2; EvInsertForecast values meta tag ver])
             (logs resolved.1), ins.2)
      end
  end.
Proof.
  unfold save_forecasts_to_site_db. simpl. unfold bind at 1.
  pose proof (get_or_create_heap nl_national "nl" None w) as Hh.
  destruct (get_or_create_pvsite nl_national "nl" None w) as [w1 [site|e]]; simpl in *;
    [|reflexivity].
  unfold bind, now_utc, update_frame, deref, lift, call. simpl.
  destruct (timestamp_now_utc (store w1)) as [s2 now]. simpl.
  rewrite lookup_total_insert_eq, Hh.
  destruct (reshape_forecast _ _) as [values|e]; simpl; [|reflexivity].
  destruct (insert_forecast_values _ _ _ _ _) as [s3 r]. simpl.
  now rewrite <- app_assoc.
Qed.

Lemma save_forecasts_to_db_empty (w : World St) :
  save_forecasts_to_db [] w =
  (mkWorld (store w) (heap w) (trace w)
     (logs w ++ [(WARNING, "No forecasts provided to save!")]), Ok tt).
Proof. reflexivity. Qed.

Lemma save_forecasts_to_csv_empty l csv_dir (w : World St) :
  df_empty (heap w !!! l) = true ->
  save_forecasts_to_csv l csv_dir w =
  (mkWorld (store w) (heap w) (trace w)
     (logs w ++ [(WARNING, "No forecasts provided to save!")]), Ok tt).
Proof.
  intros E. unfold save_forecasts_to_csv, bind, deref. now rewrite E.
Qed.

Lemma save_forecasts_to_csv_no_dir l csv_dir (w : World St) :
  df_empty (heap w !!! l) = false -> falsy csv_dir = true ->
  save_forecasts_to_csv l csv_dir w =
  (w, Raise (ValueError "CSV directory is not provided for CSV saving.")).
Proof.
  intros E F. unfold save_forecasts_to_csv, bind, deref. now rewrite E, F.
Qed.

(** The run of the CSV export once both guards are passed. *)
Lemma save_forecasts_to_csv_run l dir (w : World St) :
  df_empty (heap w !!! l) = false -> dir <> "" ->
  save_forecasts_to_csv l (Some dir) w =
  let mk := os_makedirs (store w) dir true in
  let seen := trace w ++ [EvMakedirs dir true] in
  match mk.2 with
  | Raise e => (mkWorld mk.1 (heap w) seen (logs w), Raise e)
  | Ok _ =>
      let written := drop_columns ["_sa_instance_state"] (heap w !!! l) in
      let path := os_path_join dir "forecast_data.csv" in
      let wr := to_csv mk.1 path written false in
      let hp := <[l := written]> (heap w) in
      let lg := logs w ++ [(INFO, "Saving forecasts to CSV at {csv_path}")] in
      match wr.2 with
      | Ok _ =>
          (mkWorld wr.1 hp (seen ++ [EvToCsv path written false])
             (lg ++ [(INFO, "Successfully saved {len(forecasts)} forecasts to CSV.")]), Ok tt)
      | Raise e =>
          (mkWorld wr.1 hp (seen ++ [EvToCsv path written false])
             (lg ++ [(ERROR, "An error occurred while saving forecasts to CSV: {e}")]), Raise e)
      end
  end.
Proof.
  intros E Hd. unfold save_forecasts_to_csv, bind at 1, deref. rewrite E.
  apply String.eqb_neq in Hd. simpl. rewrite Hd.
  unfold bind at 1, call. simpl.
  destruct (os_makedirs (store w) dir true) as [s1 [[]|e]]; simpl; [|reflexivity].
  unfold try_except, bind, update_frame, log, deref, call, raise. simpl.
  rewrite lookup_total_insert_eq.
  destruct (to_csv s1 _ _ false) as [s2 [[]|e]]; reflexivity.
Qed.

End Runs.

(** ** Facts about frames *)

Section FrameFacts.

Lemma col_index_Some name cols i :
  col_index name cols = Some i -> (i < length cols)%nat /\ nth i cols "" = name.
Proof.
  revert i. induction cols as [|c cs IH]; intros i; simpl; [discriminate|].
  destruct (String.eqb c name) eqn:E.
  - intros [= <-]. apply String.eqb_eq in E. split; [lia|assumption].
  - destruct (col_index name cs) as [j|]; simpl; [|discriminate].
    intros [= <-]. destruct (IH j eq_refl). split; [lia|assumption].
Qed.

Lemma col_index_In name cols i : col_index name cols = Some i -> In name cols.
Proof.
  intros E. destruct (col_index_Some _ _ _ E) as [Hlt <-]. now apply nth_In.
Qed.

Lemma col_index_None name cols : col_index name cols = None <-> ~ In name cols.
Proof.
  split.
  - induction cols as [|c cs IH]; simpl; [tauto|].
    destruct (String.eqb c name) eqn:E; [discriminate|].
    apply String.eqb_neq in E.
    destruct (col_index name cs) as [j|]; simpl; [discriminate|].
    intros _ [Hc|Hc]; [congruence|]. now apply IH.
  - intros Hn. destruct (col_index name cols) as [i|] eqn:E; [|reflexivity].
    exfalso. apply Hn. eapply col_index_In; eauto.
Qed.

Lemma has_column_In name df : has_column name df = true <-> In name (columns df).
Proof.
  unfold has_column. destruct (col_index name (columns df)) as [i|] eqn:E.
  - split; [intros _; eapply col_index_In; eauto|reflexivity].
  - split; [discriminate|]. intros Hin. now apply col_index_None in E.
Qed.

(** *** Dropping columns *)

Lemma drop_positions_filter {A} (f : A -> bool) (l : list A) :
  drop_positions (map f l) l = List.filter f l.
Proof.
  induction l as [|x xs IH]; simpl; [reflexivity|].
  destruct (f x); now rewrite IH.
Qed.

Lemma drop_columns_labels names df :
  columns (drop_columns names df) =
  List.filter (fun c => negb (existsb (String.eqb c) names)) (columns df).
Proof. unfold drop_columns. simpl. apply drop_positions_filter. Qed.

Lemma drop_columns_gone name df :
  ~ In name (columns (drop_columns [name] df)).
Proof.
  rewrite drop_columns_labels. intros Hin. apply filter_In in Hin as [_ Hk].
  simpl in Hk. now rewrite String.eqb_refl in Hk.
Qed.

Lemma drop_positions_all_kept {A B} (l : list A) (r : list B) :
  length r = length l -> drop_positions (map (fun _ => true) l) r = r.
Proof.
  revert r. induction l as [|x xs IH]; intros [|y ys]; simpl; try discriminate; auto.
  intros [= E]. now rewrite IH.
Qed.

(** Tolerance: a frame without the label comes back as it is. *)
Lemma drop_columns_absent name df :
  Forall (fun r => length r = length (columns df)) (rows df) ->
  ~ In name (columns df) -> drop_columns [name] df = df.
Proof.
  intros Hrect Hn. unfold drop_columns. destruct df as [cols rs].
  cbn [columns rows] in *.
  assert (Hkeep : map (fun c => negb (existsb (String.eqb c) [name])) cols
                  = map (fun _ => true) cols).
  { apply map_ext_in. intros c Hc. simpl.
    destruct (String.eqb c name) eqn:E; [|reflexivity].
    apply String.eqb_eq in E. congruence. }
  rewrite Hkeep. f_equal.
  - now apply drop_positions_all_kept.
  - induction Hrect as [|r rs' Hr _ IH]; simpl; [reflexivity|].
    rewrite IH. f_equal. now apply drop_positions_all_kept.
Qed.




(** *** Paths *)


(** *** Renaming *)


End FrameFacts.

(** ** The reference backend is a lawful site directory *)



(** ** Site resolution: capacity rule and idempotence *)

Section SiteClaims.
Context {St : Type} `{Backend St}.

(** C4. When [get_or_create_pvsite] creates a site, the capacity handed to
    [create_site] follows the resolution order: the explicit override when
    one is supplied; otherwise, for country "de", the entry of
    [DE_TSO_CAPACITY] under the site's client name; otherwise the flat
    20,000,000 kW.  The static table holds the four per-TSO capacities. *)
Theorem capacity_resolution_order pv country ov (w : World St) args :
  In (EvCreateSite args) (new_events w (get_or_create_pvsite pv country ov w).1) ->
  (forall c, ov = Some c -> arg_capacity_kw args = c) /\
  (ov = None -> country = "de" ->
     DE_TSO_CAPACITY !! client_site_name pv = Some (arg_capacity_kw args)) /\
  (ov = None -> country <> "de" -> arg_capacity_kw args = 20000000%Z) /\
  map (fun name => DE_TSO_CAPACITY !! name) ["TransnetBW"; "50Hertz"; "TenneT"; "Amprion"]
  = [Some 10770000%Z; Some 18175000%Z; Some 21882000%Z; Some 16506000%Z].
Proof.
  intros Hin.
  assert (Hcap : choose_capacity pv country ov = Ok (arg_capacity_kw args)).
  { pose proof (emits_new_events
      (fun ev => forall a, ev = EvCreateSite a ->
                           choose_capacity pv country ov = Ok (arg_capacity_kw a))
      (get_or_create_pvsite pv country ov) w) as HF.
    rewrite List.Forall_forall in HF. eapply HF; [|exact Hin|reflexivity].
    apply get_or_create_emits; try discriminate.
    intros capacity E a [= <-]. exact E. }
  apply choose_capacity_cases in Hcap.
  repeat split.
  - intros c ->. exact Hcap.
  - intros -> ->. exact Hcap.
  - intros -> Hne. apply String.eqb_neq in Hne. now rewrite Hne in Hcap.
Qed.

End SiteClaims.

(** The four German sites on an empty directory, no override: each is
    created with its table capacity. *)
Lemma capacity_resolution_order_witness :
  let w := Reference.world_with (mkFrame [] []) 0 in
  let args := create_site_args de_tennet "de" 21882000 in
  In (EvCreateSite args) (new_events w (get_or_create_pvsite de_tennet "de" None w).1) /\
  DE_TSO_CAPACITY !! "TenneT" = Some 21882000%Z.
Proof.
  assert (Hin : In (EvCreateSite (create_site_args de_tennet "de" 21882000))
                  (new_events (Reference.world_with (mkFrame [] []) 0)
                     (get_or_create_pvsite de_tennet "de" None
                        (Reference.world_with (mkFrame [] []) 0)).1)).
  { vm_compute. right. right. left. reflexivity. }
  split; [exact Hin|].
  exact (proj1 (proj2 (capacity_resolution_order de_tennet "de" None _ _ Hin)) eq_refl eq_refl).
Defined.

Section Idempotence.
Context {St : Type} `{Backend St} `{!DirectoryLaws St}.


End Idempotence.



(** ** Guards: empty input and unsupported countries *)

Section Guards.
Context {St : Type} `{Backend St}.

Lemma get_or_create_prefix pv country ov (w : World St) :
  exists rest,
    trace (get_or_create_pvsite pv country ov w).1 =
    trace w ++ CallGetOrCreate pv country ov
            :: EvGetSite (client_site_name pv) (client_site_name pv) :: rest.
Proof.
  destruct (get_site_by_client_site_name (store w) (client_site_name pv) (client_site_name pv))
    as [s1 [site|e]] eqn:Eg.
  - rewrite (get_or_create_found _ _ _ _ _ _ Eg). now exists [].
  - destruct (choose_capacity pv country ov) as [capacity|e'] eqn:Ecap.
    + rewrite (get_or_create_created _ _ _ _ _ _ _ Eg Ecap). eexists. reflexivity.
    + rewrite (get_or_create_unresolved _ _ _ _ _ _ _ Eg Ecap). now exists [].
Qed.

Lemma only_logged_mk (w : World St) lg :
  only_logged w (mkWorld (store w) (heap w) (trace w) lg).
Proof. repeat split. Qed.

(** C1. On an empty table (or an empty object sequence) generation save,
    forecast-object save and CSV export return normally and touch neither
    the store, nor the trace of outside calls, nor the heap.  The
    forecast-table save has no such guard: on the very same empty table it
    goes to the site directory. *)
Theorem empty_input_guards l country csv_dir tag ver (w : World St) :
  df_empty (heap w !!! l) = true ->
  (let run := save_generation_to_site_db l country w in
   run.2 = Ok tt /\ only_logged w run.1) /\
  (let run := save_forecasts_to_db [] w in
   run.2 = Ok tt /\ only_logged w run.1) /\
  (let run := save_forecasts_to_csv l csv_dir w in
   run.2 = Ok tt /\ only_logged w run.1) /\
  (let run := save_forecasts_to_site_db l tag ver "nl" w in
   exists rest, new_events w run.1 =
     CallGetOrCreate nl_national "nl" None :: EvGetSite "nl_national" "nl_national" :: rest).
Proof.
  intros E. split; [|split; [|split]]; cbv zeta.
  - rewrite save_generation_empty by exact E. split; [reflexivity|apply only_logged_mk].
  - rewrite save_forecasts_to_db_empty. split; [reflexivity|apply only_logged_mk].
  - rewrite save_forecasts_to_csv_empty by exact E.
    split; [reflexivity|apply only_logged_mk].
  - rewrite save_forecasts_run. cbv zeta.
    destruct (get_or_create_prefix nl_national "nl" None w) as [rest Hrest].
    destruct (get_or_create_pvsite nl_national "nl" None w) as [w1 [site|e]];
      cbn [fst snd] in *.
    + destruct (reshape_forecast _ _) as [values|e]; cbn [fst snd];
        eexists; apply new_events_app; cbn [trace]; rewrite Hrest, <- app_assoc; reflexivity.
    + eexists. apply new_events_app. exact Hrest.
Qed.

(** C5 (amended). Generation save with a country outside {"nl","de"} on a
    non-empty table, and forecast-table save with a country other than
    "nl" on any table, raise the input error and leave the world exactly
    as it was: nothing was looked up, created, inserted or committed.  On
    an empty table generation save returns normally instead, again
    without any outside call. *)
Theorem unsupported_country_rejected l country tag ver (w : World St) :
  (country <> "nl" -> country <> "de" ->
   (df_empty (heap w !!! l) = false ->
      save_generation_to_site_db l country w
      = (w, Raise (Exception unsupported_generation_country))) /\
   (df_empty (heap w !!! l) = true ->
      (save_generation_to_site_db l country w).2 = Ok tt /\
      only_logged w (save_generation_to_site_db l country w).1)) /\
  (country <> "nl" ->
   save_forecasts_to_site_db l tag ver country w
   = (w, Raise (Exception unsupported_forecast_country))).
Proof.
  split.
  - intros Hnl Hde. split; intros E.
    + now apply save_generation_unsupported.
    + rewrite save_generation_empty by exact E. split; [reflexivity|apply only_logged_mk].
  - apply save_forecasts_unsupported.
Qed.

End Guards.

Lemma empty_input_guards_witness :
  let w := Reference.world_with (mkFrame ["solar_generation_kw"; "target_datetime_utc"] []) 0 in
  (save_generation_to_site_db 0 "nl" w).2 = Ok tt /\
  new_events w (save_generation_to_site_db 0 "nl" w).1 = [] /\
  exists rest, new_events w (save_forecasts_to_site_db 0 "model" "1.0" "nl" w).1 =
    CallGetOrCreate nl_national "nl" None :: EvGetSite "nl_national" "nl_national" :: rest.
Proof.
  destruct (empty_input_guards 0 "nl" (Some "out") "model" "1.0"
              (Reference.world_with (mkFrame ["solar_generation_kw"; "target_datetime_utc"] []) 0)
              eq_refl) as ((Hok & Hlog) & _ & _ & Hfc).
  split; [exact Hok|]. split; [|exact Hfc].
  apply only_logged_new_events, Hlog.
Defined.

Lemma unsupported_country_rejected_witness :
  let w := Reference.world_with (mkFrame ["solar_generation_kw"] [[CInt 1]]) 0 in
  save_generation_to_site_db 0 "fr" w = (w, Raise (Exception unsupported_generation_country)) /\
  save_forecasts_to_site_db 0 "model" "1.0" "de" w
  = (w, Raise (Exception unsupported_forecast_country)).
Proof.
  pose proof (unsupported_country_rejected 0 "fr" "model" "1.0"
    (Reference.world_with (mkFrame ["solar_generation_kw"] [[CInt 1]]) 0)) as [Hgen _].
  pose proof (unsupported_country_rejected 0 "de" "model" "1.0"
    (Reference.world_with (mkFrame ["solar_generation_kw"] [[CInt 1]]) 0)) as [_ Hfc].
  split.
  - apply Hgen; [discriminate|discriminate|reflexivity].
  - apply Hfc. discriminate.
Defined.

(** C5, as stated, fails: with an empty table generation save returns
    normally whatever the country, since the emptiness guard comes first. *)
Lemma unsupported_country_empty_table_returns :
  let w := Reference.world_with (mkFrame ["solar_generation_kw"] []) 0 in
  "fr" <> "nl" /\ "fr" <> "de" /\
  save_generation_to_site_db 0 "fr" w =
  (mkWorld (store w) (heap w) (trace w)
     [(WARNING, "No generation data provided to save!")], Ok tt).
Proof. split; [discriminate|]. split; [discriminate|reflexivity]. Qed.

(** ** CSV export and in-place effects on the caller's table *)

Section CsvAndAliasing.
Context {St : Type} `{Backend St}.



End CsvAndAliasing.




(** ** The reshaped forecast table *)

Section Reshape.
Context {St : Type} `{Backend St}.

Lemma zip_with_cells_length_eq f rs cs :
  length cs = length rs -> length (zip_with_cells f rs cs) = length rs.
Proof.
  revert cs. induction rs as [|r rs IH]; intros [|c cs]; simpl; try discriminate; auto.
Qed.


Lemma reshape_rows ts ip i rs : forall E Hs,
  result_mapM (add_timedelta quarter_hour_ns)
    (map (row_cell 1) (map (fun r => map (fun k => row_cell k r) [ip; i]) rs)) = Ok E ->
  result_mapM (minutes_since dt_total_seconds float_truediv ts)
    (map (row_cell 1)
       (zip_with_cells (fun r c => r ++ [c])
          (map (fun r => map (fun k => row_cell k r) [ip; i]) rs) E)) = Ok Hs ->
  Forall2 (reshaped_row ts ip i) rs
    (zip_with_cells (fun r c => r ++ [c])
       (zip_with_cells (fun r c => r ++ [c])
          (map (fun r => map (fun k => row_cell k r) [ip; i]) rs) E) Hs).
Proof.
  induction rs as [|r rs IH]; intros E Hs; cbn [map result_mapM zip_with_cells].
  - intros _ _. constructor.
  - change (row_cell 1 [row_cell ip r; row_cell i r]) with (row_cell i r).
    destruct (add_timedelta quarter_hour_ns (row_cell i r)) as [e|] eqn:Ee; [|discriminate].
    destruct (result_mapM (add_timedelta quarter_hour_ns) _) as [E'|] eqn:EE; [|discriminate].
    intros [= <-]. cbn [map result_mapM zip_with_cells app].
    change (row_cell 1 [row_cell ip r; row_cell i r; e]) with (row_cell i r).
    destruct (minutes_since dt_total_seconds float_truediv ts (row_cell i r)) as [h|] eqn:Eh; [|discriminate].
    destruct (result_mapM (minutes_since dt_total_seconds float_truediv ts) _) as [Hs'|] eqn:EH; [|discriminate].
    intros [= <-]. cbn [zip_with_cells app].
    constructor.
    + exists e, h. auto.
    + now apply IH.
Qed.

Lemma reshape_forecast_inv ts df values :
  reshape_forecast ts df = Ok values ->
  exists ip i,
    col_index "forecast_power_kw" (columns df) = Some ip /\
    col_index "start_utc" (columns df) = Some i /\
    columns values = ["forecast_power_kw"; "start_utc"; "end_utc"; "horizon_minutes"] /\
    Forall2 (reshaped_row ts ip i) (rows df) (rows values).
Proof.
  unfold reshape_forecast, select_columns. cbn [result_mapM].
  destruct (col_index "forecast_power_kw" (columns df)) as [ip|]; [|discriminate].
  destruct (col_index "start_utc" (columns df)) as [i|]; [|discriminate].
  cbn [result_bind].
  change (getitem "start_utc" ?f) with (getitem "start_utc" f).
  unfold getitem at 1. cbn [columns rows].
  change (col_index "start_utc" ["forecast_power_kw"; "start_utc"]) with (Some 1%nat).
  cbn [result_bind].
  destruct (result_mapM (add_timedelta quarter_hour_ns) _) as [E|] eqn:EE; [|discriminate].
  cbn [result_bind]. unfold setitem at 1. cbn [columns rows].
  destruct (negb _); [discriminate|].
  change (col_index "end_utc" ["forecast_power_kw"; "start_utc"]) with (@None nat).
  cbn [result_bind app]. unfold getitem at 1. cbn [columns rows].
  change (col_index "start_utc" ["forecast_power_kw"; "start_utc"; "end_utc"]) with (Some 1%nat).
  cbn [result_bind].
  destruct (result_mapM (minutes_since dt_total_seconds float_truediv ts) _) as [Hs|] eqn:EH; [|discriminate].
  cbn [result_bind]. unfold setitem. cbn [columns rows].
  destruct (negb _); [discriminate|].
  change (col_index "horizon_minutes" ["forecast_power_kw"; "start_utc"; "end_utc"])
    with (@None nat).
  intros [= <-]. exists ip, i. cbn [columns rows app].
  repeat split. now apply reshape_rows.
Qed.

Lemma reshape_rows_defined ts ip i rs :
  Forall (fun r => (exists ns, row_cell i r = CTime true ns) \/ row_cell i r = CNull) rs ->
  exists E Hs,
    result_mapM (add_timedelta quarter_hour_ns)
      (map (row_cell 1) (map (fun r => map (fun k => row_cell k r) [ip; i]) rs)) = Ok E /\
    length E = length rs /\
    result_mapM (minutes_since dt_total_seconds float_truediv ts)
      (map (row_cell 1)
         (zip_with_cells (fun r c => r ++ [c])
            (map (fun r => map (fun k => row_cell k r) [ip; i]) rs) E)) = Ok Hs /\
    length Hs = length rs.
Proof.
  induction 1 as [|r rs Hr _ (E & Hs & HE & HlE & HH & HlH)];
    cbn [map result_mapM zip_with_cells].
  - exists [], []. auto.
  - change (row_cell 1 [row_cell ip r; row_cell i r]) with (row_cell i r).
    cbn [map] in HE, HH.
    destruct Hr as [[ns Hr]|Hr]; rewrite Hr; cbn [add_timedelta]; rewrite HE.
    + exists (CTime true (ns + quarter_hour_ns) :: E). eexists.
      split; [reflexivity|]. split; [simpl; congruence|].
      cbn [zip_with_cells map app result_mapM].
      change (row_cell 1 [row_cell ip r; CTime true ns; CTime true (ns + quarter_hour_ns)])
        with (CTime true ns).
      cbn [minutes_since]. rewrite HH. split; [reflexivity|]. simpl. congruence.
    + exists (CNull :: E). eexists.
      split; [reflexivity|]. split; [simpl; congruence|].
      cbn [zip_with_cells map app result_mapM].
      change (row_cell 1 [row_cell ip r; CNull; CNull]) with CNull.
      cbn [minutes_since]. rewrite HH. split; [reflexivity|]. simpl. congruence.
Qed.

(** The reshaping goes through on every table that has the two columns and
    whose starts are tz-aware timestamps or missing. *)
Lemma reshape_forecast_defined ts df ip i :
  col_index "forecast_power_kw" (columns df) = Some ip ->
  col_index "start_utc" (columns df) = Some i ->
  Forall (fun r => (exists ns, row_cell i r = CTime true ns) \/ row_cell i r = CNull)
    (rows df) ->
  exists values, reshape_forecast ts df = Ok values.
Proof.
  intros Hip Hi Hrows.
  destruct (reshape_rows_defined ts ip i (rows df) Hrows) as (E & Hs & HE & HlE & HH & HlH).
  unfold reshape_forecast, select_columns. cbn [result_mapM]. rewrite Hip, Hi.
  cbn [result_bind]. unfold getitem at 1. cbn [columns rows].
  change (col_index "start_utc" ["forecast_power_kw"; "start_utc"]) with (Some 1%nat).
  cbn [result_bind]. rewrite HE. cbn [result_bind]. unfold setitem at 1. cbn [columns rows].
  rewrite length_map, HlE, Nat.eqb_refl. cbn [negb].
  change (col_index "end_utc" ["forecast_power_kw"; "start_utc"]) with (@None nat).
  cbn [result_bind app]. unfold getitem at 1. cbn [columns rows].
  change (col_index "start_utc" ["forecast_power_kw"; "start_utc"; "end_utc"]) with (Some 1%nat).
  cbn [result_bind]. rewrite HH. cbn [result_bind]. unfold setitem. cbn [columns rows].
  rewrite zip_with_cells_length_eq by (rewrite length_map; exact HlE).
  rewrite length_map, HlH, Nat.eqb_refl. cbn [negb].
  change (col_index "horizon_minutes" ["forecast_power_kw"; "start_utc"; "end_utc"])
    with (@None nat).
  eexists. reflexivity.
Qed.

Lemma reshaped_row_end ts ip i rin rout :
  reshaped_row ts ip i rin rout ->
  row_cell 1 rout = row_cell i rin /\
  ((exists aware ns, row_cell i rin = CTime aware ns /\
                     row_cell 2 rout = CTime aware (ns + 900000000000)) \/
   (row_cell i rin = CNull /\ row_cell 2 rout = CNull)).
Proof.
  intros (e & h & He & _ & ->). split; [reflexivity|].
  change (row_cell 2 [row_cell ip rin; row_cell i rin; e; h]) with e.
  destruct (row_cell i rin) as [| | |aware ns|]; try discriminate; injection He as <-.
  - left. exists aware, ns. auto.
  - right. auto.
Qed.


End Reshape.

(** ** Forecast-table save: interval end and horizon *)

Section ForecastClaims.
Context {St : Type} `{Backend St}.

Lemma get_or_create_site_events pv country ov :
  emits (fun ev => event_site ev = Some (client_site_name pv))
    (get_or_create_pvsite (St := St) pv country ov).
Proof. apply get_or_create_emits; reflexivity. Qed.

(** What is known of a run of the forecast-table save that reached the
    forecast store. *)
Lemma forecast_insert_inv l tag ver country (w : World St) values meta mn mv :
  In (EvInsertForecast values meta mn mv)
     (new_events w (save_forecasts_to_site_db l tag ver country w).1) ->
  exists now pre,
    new_events w (save_forecasts_to_site_db l tag ver country w).1
      = pre ++ [EvNow now; EvInsertForecast values meta mn mv] /\
    Forall (fun ev => event_site ev = Some "nl_national") pre /\
    meta_timestamp_utc meta = floor_15min now /\
    reshape_forecast (floor_15min now)
      (rename_columns forecast_renames (heap w !!! l)) = Ok values.
Proof.
  destruct (String.eqb country "nl") eqn:Ec.
  2:{ apply String.eqb_neq in Ec.
      rewrite (save_forecasts_unsupported l tag ver country w Ec). cbn [fst].
      unfold new_events. rewrite drop_all. intros []. }
  apply String.eqb_eq in Ec. subst country.
  rewrite save_forecasts_run. cbv zeta.
  destruct (get_or_create_site_events nl_national "nl" None w) as (pre & Hpre & Fpre).
  cbn [client_site_name nl_national] in Fpre.
  assert (Hno : ~ In (EvInsertForecast values meta mn mv) pre).
  { intros Hin. rewrite List.Forall_forall in Fpre. now specialize (Fpre _ Hin). }
  destruct (get_or_create_pvsite nl_national "nl" None w) as [w1 [site|e]];
    cbn [fst snd] in *.
  - destruct (timestamp_now_utc (store w1)) as [s2 now]. cbn [fst snd].
    destruct (reshape_forecast _ _) as [values'|e] eqn:Er; cbn [fst snd].
    + rewrite (new_events_app w _ (pre ++ [EvNow now;
                 EvInsertForecast values'
                   (mkForecastMeta (location_uuid site) (floor_15min now) ver) tag ver]))
        by (cbn [trace]; rewrite Hpre, <- app_assoc; reflexivity).
      intros Hin. apply in_app_or in Hin as [Hin|[Hin|[Hin|[]]]];
        [contradiction|discriminate|].
      injection Hin as -> <- <- <-.
      exists now, pre. auto.
    + rewrite (new_events_app w _ (pre ++ [EvNow now]))
        by (cbn [trace]; rewrite Hpre, <- app_assoc; reflexivity).
      intros Hin. apply in_app_or in Hin as [Hin|[Hin|[]]];
        [contradiction|discriminate].
  - rewrite (new_events_app w _ pre Hpre). contradiction.
Qed.




(** C7. In a run of the forecast-table save that hands a table to the
    forecast store, every row of that table has its interval end equal to
    its interval start plus 15 minutes (900,000,000,000 ns), with no
    condition on the row (a missing start gives a missing end). *)
Theorem forecast_interval_end l tag ver country (w : World St) values meta mn mv :
  let df := heap w !!! l in
  let evs := new_events w (save_forecasts_to_site_db l tag ver country w).1 in
  NoDup (map (rename_label forecast_renames) (columns df)) ->
  In (EvInsertForecast values meta mn mv) evs ->
  exists i,
    col_index "start_utc" (map (rename_label forecast_renames) (columns df)) = Some i /\
    col_index "start_utc" (columns values) = Some 1%nat /\
    col_index "end_utc" (columns values) = Some 2%nat /\
    Forall2 (fun rin rout => row_cell 1 rout = row_cell i rin) (rows df) (rows values) /\
    Forall (fun rout =>
       (exists aware ns, row_cell 1 rout = CTime aware ns /\
                         row_cell 2 rout = CTime aware (ns + 15 * 60 * 1000000000)) \/
       (row_cell 1 rout = CNull /\ row_cell 2 rout = CNull))
      (rows values).
Proof.
  intros df evs _ Hin. subst evs.
  destruct (forecast_insert_inv _ _ _ _ _ _ _ _ _ Hin) as (now & pre & _ & _ & _ & Hre).
  destruct (reshape_forecast_inv _ _ _ Hre) as (ip & i & _ & Hi & Hcols & Hrows).
  exists i. rewrite Hcols. split; [exact Hi|]. split; [reflexivity|]. split; [reflexivity|].
  cbn [rename_columns rows] in Hrows. split.
  - eapply Forall2_impl; [exact Hrows|].
    intros rin rout Hr. now apply reshaped_row_end in Hr.
  - clear -Hrows. induction Hrows as [|rin rout rs rs' Hr _ IH]; constructor; [|exact IH].
    apply reshaped_row_end in Hr as [H1 Hcase]. rewrite H1. exact Hcase.
Qed.

End ForecastClaims.


Lemma forecast_interval_end_witness :
  let w := Reference.world_with Reference.sample_forecast 1000000000000 in
  In (EvInsertForecast Reference.sample_forecast_values Reference.sample_forecast_meta
        "model" "1.0")
     (new_events w (save_forecasts_to_site_db 0 "model" "1.0" "nl" w).1) /\
  Forall (fun rout =>
       (exists aware ns, row_cell 1 rout = CTime aware ns /\
                         row_cell 2 rout = CTime aware (ns + 15 * 60 * 1000000000)) \/
       (row_cell 1 rout = CNull /\ row_cell 2 rout = CNull))
    (rows Reference.sample_forecast_values).
Proof.
  assert (Hnodup : NoDup (map (rename_label forecast_renames)
                            (columns (heap (Reference.world_with Reference.sample_forecast
                                              1000000000000) !!! 0%nat)))).
  { apply (bool_decide_unpack _). vm_compute. exact I. }
  assert (Hin : In (EvInsertForecast Reference.sample_forecast_values
                      Reference.sample_forecast_meta "model" "1.0")
                  (new_events (Reference.world_with Reference.sample_forecast 1000000000000)
                     (save_forecasts_to_site_db 0 "model" "1.0" "nl"
                        (Reference.world_with Reference.sample_forecast 1000000000000)).1)).
  { vm_compute. do 4 right. left. reflexivity. }
  split; [exact Hin|].
  destruct (forecast_interval_end 0 "model" "1.0" "nl" _ _ _ _ _ Hnodup Hin)
    as (i & _ & _ & _ & _ & Hrows).
  exact Hrows.
Defined.

(** ** Generation save: the per-site loop *)

Section GenerationLoop.
Context {St : Type} `{Backend St}.

Lemma emits_bind_lift {A B} (P : event -> Prop) (r : result A) (k : A -> M St B) :
  (forall a, r = Ok a -> emits P (k a)) -> emits P (bind (lift r) k).
Proof.
  intros Hk w. unfold bind, lift. destruct r as [a|e].
  - now apply Hk.
  - exists []. simpl. rewrite app_nil_r. auto.
Qed.

(** What one turn of the loop may add to the trace: the events of the
    site's resolution, one insert of the prepared bucket, one commit; and
    none of them unless the site's bucket is non-empty. *)
Lemma save_generation_site_emits (P : event -> Prop) df country ov tso pv :
  (forall b, bucket_of country tso df = Ok b -> df_empty b = false ->
     P (CallGetOrCreate pv country ov) /\
     P (EvGetSite (client_site_name pv) (client_site_name pv)) /\
     (forall capacity, choose_capacity pv country ov = Ok capacity ->
        P (EvCreateSite (create_site_args pv country capacity))) /\
     (forall site d, prepare_generation site b = Ok d -> P (EvInsertGeneration d)) /\
     P EvCommit) ->
  emits P (save_generation_site (St := St) df country ov (tso, pv)).
Proof.
  intros HP. unfold save_generation_site.
  assert (Hbucket : forall (m : M St DataFrame),
             (forall w, m w = (w, bucket_of country tso df)) ->
             emits P (bind m (fun generation_data_tso_df =>
               if df_empty generation_data_tso_df
               then log DEBUG "No rows for TSO {tso!r}, skipping"
               else
                 site <- get_or_create_pvsite pv country ov ;;
                 prepared <- lift (prepare_generation site generation_data_tso_df) ;;
                 call (EvInsertGeneration prepared)
                   (fun s => insert_generation_values s prepared) ;;
                 call EvCommit session_commit ;;
                 log INFO "Successfully saved {len(generation_data_tso_df)} rows"))).
  { intros m Hm w. unfold bind at 1. rewrite Hm.
    destruct (bucket_of country tso df) as [b|e] eqn:Eb.
    2:{ exists []. simpl. rewrite app_nil_r. auto. }
    destruct (df_empty b) eqn:Ee.
    - apply emits_log.
    - destruct (HP b eq_refl Ee) as (Hc & Hg & Hn & Hi & Hk).
      apply emits_bind; [now apply get_or_create_emits|]. intros site.
      apply emits_bind_lift. intros d Hd.
      apply emits_bind; [apply emits_call; eauto|]. intros _.
      apply emits_bind; [now apply emits_call|]. intros _.
      apply emits_log. }
  apply Hbucket. intros w. unfold bucket_of.
  destruct (String.eqb country "de"); reflexivity.
Qed.

(** The same, for a whole run of [save_generation_to_site_db]. *)
Lemma save_generation_emits (P : event -> Prop) l country (w : World St) :
  (forall sites ov tso pv b,
     df_empty (heap w !!! l) = false ->
     country_sites_of country = Ok sites -> In (tso, pv) sites ->
     capacity_override_of (heap w !!! l) = Ok ov ->
     bucket_of country tso (heap w !!! l) = Ok b -> df_empty b = false ->
     P (CallGetOrCreate pv country ov) /\
     P (EvGetSite (client_site_name pv) (client_site_name pv)) /\
     (forall capacity, choose_capacity pv country ov = Ok capacity ->
        P (EvCreateSite (create_site_args pv country capacity))) /\
     (forall site d, prepare_generation site b = Ok d -> P (EvInsertGeneration d)) /\
     P EvCommit) ->
  Forall P (new_events w (save_generation_to_site_db l country w).1).
Proof.
  intros HP. unfold save_generation_to_site_db, bind at 1, deref.
  destruct (df_empty (heap w !!! l)) eqn:Ee.
  - apply (emits_new_events P (log WARNING "No generation data provided to save!") w).
    apply emits_log.
  - apply (emits_new_events P _ w).
    apply emits_bind_lift. intros sites Hsites.
    apply emits_bind_lift. intros ov Hov.
    apply emits_for_each. intros [tso pv] Hin.
    apply save_generation_site_emits. intros b Hb Hne.
    now apply (HP sites ov tso pv b).
Qed.

End GenerationLoop.

(** ** The capacity override *)

Section CapacityOverride.
Context {St : Type} `{Backend St}.




(** *** The order of strings *)









End CapacityOverride.

(** ** Buckets and prepared frames *)

Section Buckets.
Context {St : Type} `{Backend St}.

Lemma cell_eq_str_true s c : cell_eq_str s c = true <-> c = CStr s.
Proof.
  destruct c as [| |s'| |]; simpl; try (split; discriminate).
  rewrite String.eqb_eq. split; congruence.
Qed.

Lemma filter_eq_rows name tso df i :
  col_index name (columns df) = Some i ->
  exists b, filter_eq name tso df = Ok b /\ columns b = columns df /\
            forall r, In r (rows b) <-> In r (rows df) /\ row_cell i r = CStr tso.
Proof.
  intros Hi. unfold filter_eq. rewrite Hi. eexists. split; [reflexivity|].
  split; [reflexivity|]. intros r. cbn [rows].
  rewrite filter_In, cell_eq_str_true. reflexivity.
Qed.

Lemma df_empty_false_rows df : df_empty df = false -> rows df <> [].
Proof.
  unfold df_empty. destruct (columns df); [discriminate|].
  destruct (rows df); [discriminate|]. discriminate.
Qed.

Lemma col_index_rename_tso cols :
  col_index "tso_zone" (map (rename_label generation_renames) cols)
  = col_index "tso_zone" cols.
Proof.
  induction cols as [|c cs IH]; [reflexivity|].
  cbn [map col_index]. rewrite IH.
  replace (String.eqb (rename_label generation_renames c) "tso_zone")
    with (String.eqb c "tso_zone"); [reflexivity|].
  cbn [rename_label generation_renames].
  destruct (String.eqb "solar_generation_kw" c) eqn:E1.
  - apply String.eqb_eq in E1. now subst c.
  - destruct (String.eqb "target_datetime_utc" c) eqn:E2; [|reflexivity].
    apply String.eqb_eq in E2. now subst c.
Qed.

Lemma col_index_app name cols extra i :
  col_index name cols = Some i -> col_index name (cols ++ extra) = Some i.
Proof.
  revert i. induction cols as [|c cs IH]; intros i; simpl; [discriminate|].
  destruct (String.eqb c name); [auto|].
  destruct (col_index name cs) as [j|]; simpl; [|discriminate].
  intros [= <-]. now rewrite (IH j eq_refl).
Qed.

Lemma col_index_distinct a b cols i k :
  a <> b -> col_index a cols = Some i -> col_index b cols = Some k -> i <> k.
Proof.
  intros Hab Ha Hb ->. apply col_index_Some in Ha as [_ Ha], Hb as [_ Hb]. congruence.
Qed.

Lemma row_cell_insert_ne i k c (r : list cell) :
  i <> k -> row_cell i (<[k:=c]> r) = row_cell i r.
Proof.
  unfold row_cell. revert i k. induction r as [|x xs IH]; intros [|i] [|k] Hne;
    simpl; try reflexivity; try congruence.
  apply IH. congruence.
Qed.

Lemma row_cell_app i v tso (r : list cell) :
  row_cell i r = CStr tso -> row_cell i (r ++ [v]) = CStr tso.
Proof.
  unfold row_cell. intros Hr.
  destruct (Nat.lt_ge_cases i (length r)) as [Hlt|Hge].
  - now rewrite app_nth1.
  - rewrite nth_overflow in Hr by exact Hge. discriminate.
Qed.

Lemma zip_with_cells_Forall (P : list cell -> Prop) f rs cs :
  (forall r c, P r -> P (f r c)) -> Forall P rs -> Forall P (zip_with_cells f rs cs).
Proof.
  intros Hf Hrs. revert cs. induction Hrs as [|r rs' Hr _ IH]; intros [|c cs]; simpl;
    constructor; auto.
Qed.

(** Preparing a bucket keeps the zone column where it was, with the same
    tags, and keeps the number of rows. *)
Lemma prepare_generation_zone site b d i tso :
  prepare_generation site b = Ok d ->
  col_index "tso_zone" (columns b) = Some i ->
  Forall (fun r => row_cell i r = CStr tso) (rows b) ->
  col_index "tso_zone" (columns d) = Some i /\
  Forall (fun r => row_cell i r = CStr tso) (rows d) /\
  length (rows d) = length (rows b).
Proof.
  unfold prepare_generation. intros Hprep Hi Hrows.
  set (renamed := rename_columns generation_renames b) in *.
  assert (Hi' : col_index "tso_zone" (columns renamed) = Some i).
  { unfold renamed. cbn [rename_columns columns]. now rewrite col_index_rename_tso. }
  assert (Hrows' : Forall (fun r => row_cell i r = CStr tso) (rows renamed)) by exact Hrows.
  assert (Hlen' : length (rows renamed) = length (rows b)) by reflexivity.
  clearbody renamed.
  unfold getitem in Hprep.
  destruct (col_index "start_utc" (columns renamed)) as [k|] eqn:Ek; [|discriminate].
  cbn [result_bind] in Hprep.
  destruct (pd_to_datetime _) as [start_dt|]; [|discriminate].
  cbn [result_bind] in Hprep. unfold setitem in Hprep. rewrite Ek in Hprep.
  destruct (negb (length start_dt =? length (rows renamed))%nat) eqn:El; [discriminate|].
  apply negb_false_iff, Nat.eqb_eq in El.
  cbn [result_bind] in Hprep. injection Hprep as <-.
  assert (Hik : i <> k) by (eapply (col_index_distinct "tso_zone" "start_utc"); eauto; discriminate).
  set (with_start := {| columns := columns renamed; rows := _ |}).
  assert (Hi2 : col_index "tso_zone" (columns with_start) = Some i) by exact Hi'.
  assert (Hrows2 : Forall (fun r => row_cell i r = CStr tso) (rows with_start)).
  { apply zip_with_cells_Forall; [|exact Hrows'].
    intros r c Hr. now rewrite row_cell_insert_ne. }
  assert (Hlen2 : length (rows with_start) = length (rows b)).
  { unfold with_start. cbn [rows]. rewrite zip_with_cells_length_eq; [exact Hlen'|exact El]. }
  clearbody with_start. unfold setitem_scalar.
  destruct (col_index "site_uuid" (columns with_start)) as [k'|] eqn:Ek'; cbn [columns rows].
  - assert (Hik' : i <> k')
      by (eapply (col_index_distinct "tso_zone" "site_uuid"); eauto; discriminate).
    split; [exact Hi2|]. split; [|now rewrite length_map].
    apply List.Forall_map. eapply List.Forall_impl; [|exact Hrows2].
    intros r Hr. now rewrite row_cell_insert_ne.
  - split; [now apply col_index_app|]. split; [|now rewrite length_map].
    apply List.Forall_map. eapply List.Forall_impl; [|exact Hrows2].
    intros r Hr. now apply row_cell_app.
Qed.

Lemma de_site_names tso pv :
  In (tso, pv) DE_TSO_SITES -> client_site_name pv = tso /\ In tso DE_TSO_NAMES.
Proof.
  intros [E|[E|[E|[E|[]]]]]; injection E as <- <-; (split; [reflexivity|]);
    unfold DE_TSO_NAMES; simpl; tauto.
Qed.

End Buckets.

(** ** Generation save: capacity override and German buckets *)

Section GenerationClaims.
Context {St : Type} `{Backend St}.


End GenerationClaims.



(** ** Generation save: what a run does, step by step *)

Section GenerationRuns.
Context {St : Type} `{Backend St}.

(** One turn of the loop, spelled out on the outcomes of its calls. *)
Lemma save_generation_site_run df country ov tso pv (w : World St) :
  save_generation_site df country ov (tso, pv) w =
  match bucket_of country tso df with
  | Raise e => (w, Raise e)
  | Ok b =>
      if df_empty b
      then (mkWorld (store w) (heap w) (trace w)
              (logs w ++ [(DEBUG, "No rows for TSO {tso!r}, skipping")]), Ok tt)
      else
        let resolved := get_or_create_pvsite pv country ov w in
        match resolved.2 with
        | Raise e => (resolved.1, Raise e)
        | Ok site =>
            match prepare_generation site b with
            | Raise e => (resolved.1, Raise e)
            | Ok d =>
                let ins := insert_generation_values (store resolved.1) d in
                match ins.2 with
                | Raise e =>
                    (mkWorld ins.1 (heap resolved.1)
                       (trace resolved.1 ++ [EvInsertGeneration d]) (logs resolved.1),
                     Raise e)
                | Ok _ =>
                    let cm := session_commit ins.1 in
                    match cm.2 with
                    | Raise e =>
                        (mkWorld cm.1 (heap resolved.1)
                           (trace resolved.1 ++ [EvInsertGeneration d; EvCommit])
                           (logs resolved.1), Raise e)
                    | Ok _ =>
                        (mkWorld cm.1 (heap resolved.1)
                           (trace resolved.1 ++ [EvInsertGeneration d; EvCommit])
                           (logs resolved.1 ++
                              [(INFO, "Successfully saved {len(generation_data_tso_df)} rows")]),
                         Ok tt)
                    end
                end
            end
        end
  end.
Proof.
  unfold save_generation_site, bucket_of, bind at 1.
  assert (Hb : (if String.eqb country "de"
                then lift (filter_eq "tso_zone" tso df)
                else ret df) w
               = (w, if String.eqb country "de" then filter_eq "tso_zone" tso df else Ok df))
    by (destruct (String.eqb country "de"); reflexivity).
  rewrite Hb. clear Hb.
  destruct (if String.eqb country "de" then filter_eq "tso_zone" tso df else Ok df)
    as [b|e]; [|reflexivity].
  destruct (df_empty b); [reflexivity|].
  cbv zeta. unfold bind at 1.
  destruct (get_or_create_pvsite pv country ov w) as [w1 [site|e]]; cbn [fst snd];
    [|reflexivity].
  unfold bind at 1, lift.
  destruct (prepare_generation site b) as [d|e]; [|reflexivity].
  unfold bind, call, log. cbn [store heap trace logs].
  destruct (insert_generation_values (store w1) d) as [s2 [[]|e]];
    cbn [fst snd store heap trace logs]; [|reflexivity].
  destruct (session_commit s2) as [s3 [[]|e]]; cbn [fst snd store heap trace logs];
    now rewrite <- app_assoc.
Qed.

Lemma save_generation_run l country (w : World St) :
  df_empty (heap w !!! l) = false ->
  save_generation_to_site_db l country w =
  match country_sites_of country with
  | Raise e => (w, Raise e)
  | Ok sites =>
      match capacity_override_of (heap w !!! l) with
      | Raise e => (w, Raise e)
      | Ok ov => for_each sites (save_generation_site (heap w !!! l) country ov) w
      end
  end.
Proof.
  intros Hne. unfold save_generation_to_site_db, bind at 1, deref. rewrite Hne.
  unfold bind, lift.
  destruct (country_sites_of country) as [sites|e]; [|reflexivity].
  destruct (capacity_override_of (heap w !!! l)) as [ov|e]; reflexivity.
Qed.

(** *** The caller's table is only read *)

Lemma keeps_heap_bind {A B} (m : M St A) (k : A -> M St B) :
  keeps_heap m -> (forall a, keeps_heap (k a)) -> keeps_heap (bind m k).
Proof.
  intros Hm Hk w. unfold bind. specialize (Hm w).
  destruct (m w) as [w1 [a|e]]; cbn [fst] in *; [|exact Hm].
  now rewrite Hk.
Qed.

Lemma keeps_heap_for_each {A} (l : list A) (body : A -> M St unit) :
  (forall x, keeps_heap (body x)) -> keeps_heap (for_each l body).
Proof.
  intros Hbody. induction l as [|x xs IH]; simpl.
  - intros w. reflexivity.
  - apply keeps_heap_bind; [apply Hbody|]. intros _. exact IH.
Qed.

Lemma keeps_heap_call {A} ev (op : St -> St * result A) : keeps_heap (call ev op).
Proof. intros w. unfold call. now destruct (op (store w)). Qed.

Lemma save_generation_site_keeps_heap df country ov item :
  keeps_heap (save_generation_site (St := St) df country ov item).
Proof.
  destruct item as [tso pv]. unfold save_generation_site.
  apply keeps_heap_bind.
  { intros w. destruct (String.eqb country "de"); reflexivity. }
  intros b. destruct (df_empty b); [intros w; reflexivity|].
  apply keeps_heap_bind; [intros w; apply get_or_create_heap|]. intros site.
  apply keeps_heap_bind; [intros w; reflexivity|]. intros d.
  apply keeps_heap_bind; [apply keeps_heap_call|]. intros _.
  apply keeps_heap_bind; [apply keeps_heap_call|]. intros _.
  intros w. reflexivity.
Qed.

(** X1. Generation save never writes to a frame of the caller: the table
    it is given is read, filtered into copies and left as it was, whether
    the run succeeds or raises. *)
Theorem generation_save_leaves_tables l country (w : World St) :
  heap (save_generation_to_site_db l country w).1 = heap w.
Proof.
  revert w. change (keeps_heap (save_generation_to_site_db (St := St) l country)).
  unfold save_generation_to_site_db.
  apply keeps_heap_bind; [intros w; reflexivity|]. intros df.
  destruct (df_empty df); [intros w; reflexivity|].
  apply keeps_heap_bind; [intros w; reflexivity|]. intros sites.
  apply keeps_heap_bind; [intros w; reflexivity|]. intros ov.
  apply keeps_heap_for_each. intros item. apply save_generation_site_keeps_heap.
Qed.

End GenerationRuns.

(** ** Generation save: the plan a run follows *)

Section GenerationPlan.
Context {St : Type} `{Backend St}.

(** Preparing a bucket, spelled out. *)
Lemma prepare_generation_inv site b d :
  prepare_generation site b = Ok d ->
  exists k start_dt,
    col_index "start_utc" (map (rename_label generation_renames) (columns b)) = Some k /\
    pd_to_datetime (map (row_cell k) (rows b)) = Ok start_dt /\
    length start_dt = length (rows b) /\
    d = setitem_scalar "site_uuid" (CStr (location_uuid site))
          {| columns := map (rename_label generation_renames) (columns b);
             rows := zip_with_cells (fun r c => <[k:=c]> r) (rows b) start_dt |}.
Proof.
  unfold prepare_generation, getitem, rename_columns. cbn [columns rows].
  destruct (col_index "start_utc" _) as [k|] eqn:Ek; [|discriminate].
  cbn [result_bind].
  destruct (pd_to_datetime _) as [start_dt|] eqn:Ed; [|discriminate].
  cbn [result_bind]. unfold setitem. cbn [columns rows]. rewrite Ek.
  destruct (negb (length start_dt =? length (rows b))%nat) eqn:El; [discriminate|].
  apply negb_false_iff, Nat.eqb_eq in El.
  cbn [result_bind]. intros [= <-]. exists k, start_dt. auto.
Qed.

Lemma setitem_scalar_length name v df :
  length (rows (setitem_scalar name v df)) = length (rows df).
Proof.
  unfold setitem_scalar. destruct (col_index name (columns df)); cbn [rows];
    apply length_map.
Qed.

Lemma prepare_generation_length site b d :
  prepare_generation site b = Ok d -> length (rows d) = length (rows b).
Proof.
  intros Hp. apply prepare_generation_inv in Hp as (k & start_dt & _ & _ & Hl & ->).
  rewrite setitem_scalar_length. cbn [rows]. now apply zip_with_cells_length_eq.
Qed.

Lemma get_or_create_steps pv country ov (w : World St) :
  exists evs,
    trace (get_or_create_pvsite pv country ov w).1 = trace w ++ evs /\
    steps evs = [SResolve pv country ov].
Proof.
  destruct (get_site_by_client_site_name (store w) (client_site_name pv) (client_site_name pv))
    as [s1 [site|e]] eqn:Eg.
  - rewrite (get_or_create_found _ _ _ _ _ _ Eg). eexists. split; reflexivity.
  - destruct (choose_capacity pv country ov) as [capacity|e'] eqn:Ecap.
    + rewrite (get_or_create_created _ _ _ _ _ _ _ Eg Ecap). eexists. split; reflexivity.
    + rewrite (get_or_create_unresolved _ _ _ _ _ _ _ Eg Ecap). eexists. split; reflexivity.
Qed.

Lemma prefix_of_self_app {A} (l k : list A) : l `prefix_of` l ++ k.
Proof. now exists k. Qed.

(** One turn of the loop takes a prefix of its site's plan, all of it when
    it returns. *)
Lemma save_generation_site_steps df country ov item (w : World St) :
  exists evs,
    trace (save_generation_site df country ov item w).1 = trace w ++ evs /\
    steps evs `prefix_of` site_plan country ov df item /\
    ((save_generation_site df country ov item w).2 = Ok tt ->
     steps evs = site_plan country ov df item).
Proof.
  destruct item as [tso pv]. rewrite save_generation_site_run. unfold site_plan.
  cbn [fst snd].
  destruct (bucket_of country tso df) as [b|e].
  2:{ exists []. cbn [fst snd]. rewrite app_nil_r. repeat split. apply prefix_nil. }
  destruct (df_empty b).
  { exists []. cbn [fst snd trace]. rewrite app_nil_r. repeat split. apply prefix_nil. }
  cbv zeta. destruct (get_or_create_steps pv country ov w) as (pre & Hpre & Hsteps).
  destruct (get_or_create_pvsite pv country ov w) as [w1 [site|e]]; cbn [fst snd] in *.
  2:{ exists pre. split; [exact Hpre|]. rewrite Hsteps. split; [|discriminate].
      apply (prefix_of_self_app [_] [_; _]). }
  destruct (prepare_generation site b) as [d|e] eqn:Ep.
  2:{ exists pre. split; [exact Hpre|]. rewrite Hsteps. split; [|discriminate].
      apply (prefix_of_self_app [_] [_; _]). }
  apply prepare_generation_length in Ep.
  destruct (insert_generation_values (store w1) d) as [s2 [[]|e]]; cbn [fst snd].
  2:{ exists (pre ++ [EvInsertGeneration d]). cbn [trace].
      split; [now rewrite Hpre, <- app_assoc|].
      unfold steps in *. rewrite omap_app, Hsteps. cbn. rewrite Ep.
      split; [|discriminate]. apply (prefix_of_self_app [_; _] [_]). }
  destruct (session_commit s2) as [s3 [[]|e]]; cbn [fst snd trace];
    exists (pre ++ [EvInsertGeneration d; EvCommit]);
    (split; [now rewrite Hpre, <- app_assoc|]);
    unfold steps in *; rewrite omap_app, Hsteps; cbn; rewrite Ep; split; reflexivity.
Qed.

Lemma for_each_generation_steps df country ov sites (w : World St) :
  exists evs,
    trace (for_each sites (save_generation_site df country ov) w).1 = trace w ++ evs /\
    steps evs `prefix_of` generation_plan country ov df sites /\
    ((for_each sites (save_generation_site df country ov) w).2 = Ok tt ->
     steps evs = generation_plan country ov df sites).
Proof.
  revert w. induction sites as [|item sites IH]; intros w; cbn [for_each generation_plan flat_map].
  - exists []. cbn. rewrite app_nil_r. repeat split. apply prefix_nil.
  - unfold bind.
    destruct (save_generation_site_steps df country ov item w) as (evs1 & Ht1 & Hp1 & Hok1).
    destruct (save_generation_site df country ov item w) as [w1 [[]|e]]; cbn [fst snd] in *.
    + destruct (IH w1) as (evs2 & Ht2 & Hp2 & Hok2).
      exists (evs1 ++ evs2). split; [now rewrite Ht2, Ht1, app_assoc|].
      unfold steps in *. rewrite omap_app, (Hok1 eq_refl). split.
      * now apply prefix_app.
      * intros Hok. now rewrite (Hok2 Hok).
    + exists evs1. split; [exact Ht1|]. split; [|discriminate].
      now apply prefix_app_r.
Qed.

Lemma generation_run_steps l country sites ov (w : World St) :
  df_empty (heap w !!! l) = false ->
  country_sites_of country = Ok sites ->
  capacity_override_of (heap w !!! l) = Ok ov ->
  steps (new_events w (save_generation_to_site_db l country w).1)
    `prefix_of` generation_plan country ov (heap w !!! l) sites /\
  ((save_generation_to_site_db l country w).2 = Ok tt ->
   steps (new_events w (save_generation_to_site_db l country w).1)
   = generation_plan country ov (heap w !!! l) sites).
Proof.
  intros Hne Hsites Hov.
  rewrite (save_generation_run l country w Hne), Hsites, Hov.
  destruct (for_each_generation_steps (heap w !!! l) country ov sites w)
    as (evs & Ht & Hp & Hok).
  rewrite (new_events_app _ _ _ Ht). auto.
Qed.

(** X2. A run of generation save on a non-empty table follows one plan:
    site by site in the order of the registry, and only for the sites
    whose bucket is non-empty, resolve the site with the run's override,
    insert a frame with as many rows as the bucket, commit.  A run that
    raises has taken a prefix of these steps (what was committed stays,
    the rest is not attempted); a run that returns has taken them all. *)
Theorem generation_steps_follow_plan l country sites ov (w : World St) :
  let df := heap w !!! l in
  let run := save_generation_to_site_db l country w in
  df_empty df = false ->
  country_sites_of country = Ok sites ->
  capacity_override_of df = Ok ov ->
  steps (new_events w run.1) `prefix_of` generation_plan country ov df sites /\
  (run.2 = Ok tt -> steps (new_events w run.1) = generation_plan country ov df sites).
Proof.
  intros df run Hne Hsites Hov. now apply generation_run_steps.
Qed.

(** X3. For country "nl" the whole table is one bucket: a run that returns
    on a non-empty table has resolved the national site once, inserted as
    many rows as the table has, and committed once, whatever the table's
    columns. *)
Theorem nl_generation_is_one_bucket l ov (w : World St) :
  let df := heap w !!! l in
  let run := save_generation_to_site_db l "nl" w in
  df_empty df = false ->
  capacity_override_of df = Ok ov ->
  run.2 = Ok tt ->
  steps (new_events w run.1)
  = [SResolve nl_national "nl" ov; SInsert (length (rows df)); SCommit].
Proof.
  intros df run Hne Hov Hok.
  destruct (generation_run_steps l "nl" _ ov w Hne eq_refl Hov) as [_ Heq].
  fold run in Heq. rewrite (Heq Hok).
  unfold generation_plan, site_plan. cbn [flat_map fst snd bucket_of String.eqb].
  change (bucket_of "nl" "nl_national" (heap w !!! l)) with (Ok (A := DataFrame) df).
  cbn iota. rewrite Hne. reflexivity.
Qed.

End GenerationPlan.

(** ** Generation save for Germany: every known row is stored once *)

Section GermanRowCount.
Context {St : Type} `{Backend St}.

Lemma plan_rows_app p q : plan_rows (p ++ q) = (plan_rows p + plan_rows q)%nat.
Proof. unfold plan_rows. now rewrite map_app, list_sum_app. Qed.

Lemma rows_inserted_steps evs : rows_inserted evs = plan_rows (steps evs).
Proof.
  unfold rows_inserted, plan_rows, steps, list_sum.
  induction evs as [|ev evs IH]; [reflexivity|].
  destruct ev; simpl; try exact IH; f_equal; exact IH.
Qed.

Lemma site_plan_rows_de ov df i tso pv :
  col_index "tso_zone" (columns df) = Some i ->
  plan_rows (site_plan "de" ov df (tso, pv))
  = length (List.filter (fun r => cell_eq_str tso (row_cell i r)) (rows df)).
Proof.
  intros Hi. unfold site_plan. cbn [fst snd].
  change (bucket_of "de" tso df) with (filter_eq "tso_zone" tso df).
  unfold filter_eq. rewrite Hi. unfold df_empty. cbn [columns rows].
  destruct (columns df) as [|c cs]; [discriminate|].
  destruct (List.filter _ (rows df)) as [|r rs]; [reflexivity|].
  unfold plan_rows. cbn. lia.
Qed.

Lemma known_zone_count i r :
  ((if cell_eq_str "TransnetBW" (row_cell i r) then 1 else 0) +
   (if cell_eq_str "50Hertz" (row_cell i r) then 1 else 0) +
   (if cell_eq_str "TenneT" (row_cell i r) then 1 else 0) +
   (if cell_eq_str "Amprion" (row_cell i r) then 1 else 0))%nat
  = (if known_zone i r then 1 else 0)%nat.
Proof.
  unfold known_zone, DE_TSO_NAMES. cbn [map fst DE_TSO_SITES existsb].
  destruct (cell_eq_str "TransnetBW" (row_cell i r)) eqn:E1;
  destruct (cell_eq_str "50Hertz" (row_cell i r)) eqn:E2;
  destruct (cell_eq_str "TenneT" (row_cell i r)) eqn:E3;
  destruct (cell_eq_str "Amprion" (row_cell i r)) eqn:E4;
  try reflexivity;
  repeat match goal with
         | E : cell_eq_str _ _ = true |- _ => apply cell_eq_str_true in E
         end; congruence.
Qed.

Lemma filter_length_cons {A} (p : A -> bool) x xs :
  length (List.filter p (x :: xs))
  = ((if p x then 1 else 0) + length (List.filter p xs))%nat.
Proof. simpl. now destruct (p x). Qed.

Lemma de_bucket_rows_sum i rs :
  (length (List.filter (fun r => cell_eq_str "TransnetBW" (row_cell i r)) rs) +
   length (List.filter (fun r => cell_eq_str "50Hertz" (row_cell i r)) rs) +
   length (List.filter (fun r => cell_eq_str "TenneT" (row_cell i r)) rs) +
   length (List.filter (fun r => cell_eq_str "Amprion" (row_cell i r)) rs))%nat
  = length (List.filter (known_zone i) rs).
Proof.
  induction rs as [|r rs IH]; [reflexivity|].
  rewrite !filter_length_cons, <- IH, <- known_zone_count. lia.
Qed.

(** X4. A German run that returns has handed to the generation store as
    many rows as the input holds with a known zone tag: every such row is
    stored, none twice, and rows with another tag add nothing. *)
Theorem de_stores_every_known_row l ov i (w : World St) :
  let df := heap w !!! l in
  let run := save_generation_to_site_db l "de" w in
  df_empty df = false ->
  col_index "tso_zone" (columns df) = Some i ->
  capacity_override_of df = Ok ov ->
  run.2 = Ok tt ->
  rows_inserted (new_events w run.1) = length (List.filter (known_zone i) (rows df)).
Proof.
  intros df run Hne Hi Hov Hok.
  destruct (generation_run_steps l "de" _ ov w Hne eq_refl Hov) as [_ Heq].
  rewrite rows_inserted_steps. fold run in Heq. rewrite (Heq Hok). fold df.
  unfold generation_plan, DE_TSO_SITES. cbn [flat_map].
  rewrite !plan_rows_app, !(site_plan_rows_de ov df i) by exact Hi.
  rewrite <- de_bucket_rows_sum. unfold plan_rows. cbn. lia.
Qed.

End GermanRowCount.

(** ** Generation save for Germany: the buckets and what is stored *)

Section GermanBuckets.
Context {St : Type} `{Backend St}.

(** A turn of the loop that returns on a non-empty bucket has resolved the
    site, handed the prepared bucket to the generation store and
    committed. *)
Lemma save_generation_site_stores df country ov tso pv b (w : World St) :
  bucket_of country tso df = Ok b -> df_empty b = false ->
  (save_generation_site df country ov (tso, pv) w).2 = Ok tt ->
  exists evs site d,
    trace (save_generation_site df country ov (tso, pv) w).1 = trace w ++ evs /\
    In (CallGetOrCreate pv country ov) evs /\
    prepare_generation site b = Ok d /\
    In (EvInsertGeneration d) evs /\ In EvCommit evs.
Proof.
  intros Hb Hne. rewrite save_generation_site_run, Hb, Hne. cbv zeta.
  destruct (get_or_create_prefix pv country ov w) as (rest & Hpre).
  destruct (get_or_create_pvsite pv country ov w) as [w1 [site|e]]; cbn [fst snd] in *;
    [|discriminate].
  destruct (prepare_generation site b) as [d|e] eqn:Ep; [|discriminate].
  destruct (insert_generation_values (store w1) d) as [s2 [[]|e]]; cbn [fst snd];
    [|discriminate].
  destruct (session_commit s2) as [s3 [[]|e]]; cbn [fst snd trace]; [|discriminate].
  intros _. eexists _, site, d. rewrite Hpre, <- app_assoc.
  split; [reflexivity|]. split; [now left|]. split; [exact Ep|].
  split; apply in_or_app; right; simpl; auto.
Qed.

(** A loop that returns has done so for every site of the registry whose
    bucket is non-empty. *)
Lemma for_each_generation_stores df country ov sites (w : World St) :
  (for_each sites (save_generation_site df country ov) w).2 = Ok tt ->
  exists evs,
    trace (for_each sites (save_generation_site df country ov) w).1 = trace w ++ evs /\
    forall tso pv b,
      In (tso, pv) sites -> bucket_of country tso df = Ok b -> df_empty b = false ->
      exists site d,
        In (CallGetOrCreate pv country ov) evs /\
        prepare_generation site b = Ok d /\
        In (EvInsertGeneration d) evs /\ In EvCommit evs.
Proof.
  revert w. induction sites as [|item sites IH]; intros w; cbn [for_each].
  - intros _. exists []. cbn. rewrite app_nil_r. split; [reflexivity|]. intros ? ? ? [].
  - unfold bind.
    destruct (save_generation_site_steps df country ov item w) as (evs1 & Ht1 & _).
    destruct (save_generation_site df country ov item w) as [w1 [[]|e]] eqn:Erun;
      cbn [fst snd] in *; [|discriminate].
    intros Hok. destruct (IH w1 Hok) as (evs2 & Ht2 & Hrest).
    exists (evs1 ++ evs2). split; [now rewrite Ht2, Ht1, app_assoc|].
    intros tso pv b [E|Hin] Hb Hne.
    + subst item.
      pose proof (save_generation_site_stores df country ov tso pv b w Hb Hne) as Hfirst.
      rewrite Erun in Hfirst. cbn [fst snd] in Hfirst.
      destruct (Hfirst eq_refl)
        as (evs & site & d & Ht & Hc & Hp & Hi & Hk).
      rewrite Ht1 in Ht. apply app_inv_head in Ht. subst evs.
      exists site, d. rewrite !in_app_iff. auto.
    + destruct (Hrest tso pv b Hin Hb Hne) as (site & d & Hc & Hp & Hi & Hk).
      exists site, d. rewrite !in_app_iff. auto.
Qed.

Lemma col_index_columns name cols i : col_index name cols = Some i -> cols <> [].
Proof. now destruct cols. Qed.

(** C3. For country "de" and a table with a [tso_zone] column, the loop
    builds one bucket per known TSO name, holding exactly the rows of the
    input tagged with that name.  So a row lies in a bucket exactly when
    its tag is one of the four names, and a row tagged otherwise lies in
    none.  Every frame handed to the generation store comes from a
    non-empty bucket of a known name and holds rows tagged with that name
    only: rows with another tag are never stored.  For a name whose bucket
    is empty the run makes no call about that site: no resolution, no
    lookup, no creation.  And a run that returns has gone through every
    non-empty bucket: for each of the four sites with rows, the site was
    resolved, the bucket, prepared, was handed to the generation store,
    and committed; in all, as many rows were handed over as the input has
    rows with a known tag. *)
Theorem de_rows_partitioned_by_zone l (w : World St) i :
  let df := heap w !!! l in
  let run := save_generation_to_site_db l "de" w in
  let evs := new_events w run.1 in
  NoDup (columns df) ->
  col_index "tso_zone" (columns df) = Some i ->
  DE_TSO_NAMES = ["TransnetBW"; "50Hertz"; "TenneT"; "Amprion"] /\
  (forall tso, exists b,
     filter_eq "tso_zone" tso df = Ok b /\ columns b = columns df /\
     forall r, In r (rows b) <-> In r (rows df) /\ row_cell i r = CStr tso) /\
  (forall r, In r (rows df) ->
     (exists tso b, In tso DE_TSO_NAMES /\
                    filter_eq "tso_zone" tso df = Ok b /\ In r (rows b)) <->
     (exists tso, In tso DE_TSO_NAMES /\ row_cell i r = CStr tso)) /\
  (forall d, In (EvInsertGeneration d) evs ->
     exists tso b, In tso DE_TSO_NAMES /\
                   filter_eq "tso_zone" tso df = Ok b /\ df_empty b = false /\
                   length (rows d) = length (rows b) /\
                   col_index "tso_zone" (columns d) = Some i /\
                   Forall (fun r => row_cell i r = CStr tso) (rows d)) /\
  (forall tso b, filter_eq "tso_zone" tso df = Ok b -> rows b = [] ->
     forall ev, In ev evs -> event_site ev <> Some tso) /\
  (run.2 = Ok tt ->
   (forall tso pv b,
      In (tso, pv) DE_TSO_SITES ->
      filter_eq "tso_zone" tso df = Ok b -> rows b <> [] ->
      exists ov site d,
        capacity_override_of df = Ok ov /\
        In (CallGetOrCreate pv "de" ov) evs /\
        prepare_generation site b = Ok d /\
        In (EvInsertGeneration d) evs /\ In EvCommit evs) /\
   rows_inserted evs = length (List.filter (known_zone i) (rows df))).
Proof.
  intros df run evs _ Hi. subst run.
  assert (HF : Forall
    (fun ev =>
       (forall name, event_site ev = Some name ->
          exists b, filter_eq "tso_zone" name df = Ok b /\ df_empty b = false) /\
       (forall d, ev = EvInsertGeneration d ->
          exists tso b, In tso DE_TSO_NAMES /\
                        filter_eq "tso_zone" tso df = Ok b /\ df_empty b = false /\
                        length (rows d) = length (rows b) /\
                        col_index "tso_zone" (columns d) = Some i /\
                        Forall (fun r => row_cell i r = CStr tso) (rows d))) evs).
  { apply save_generation_emits.
    intros sites ov tso pv b _ Hsites Hin _ Hb Hne. fold df in Hb.
    injection Hsites as <-. change (bucket_of "de" tso df) with (filter_eq "tso_zone" tso df) in Hb.
    destruct (de_site_names tso pv Hin) as [Hname Hknown]. rewrite Hname.
    split; [|split; [|split; [|split]]].
    - split; [intros name [= <-]; rewrite Hname; eauto|discriminate].
    - split; [intros name [= <-]; eauto|discriminate].
    - intros capacity _. split; [intros name [= <-]; rewrite Hname; eauto|discriminate].
    - intros site d Hprep. split; [discriminate|]. intros d' [= <-].
      destruct (filter_eq_rows "tso_zone" tso df i Hi) as (b' & Hb' & Hcols & Hrows).
      rewrite Hb in Hb'. injection Hb' as <-.
      assert (Hzone : Forall (fun r => row_cell i r = CStr tso) (rows b)).
      { apply List.Forall_forall. intros r Hr. now apply Hrows in Hr. }
      rewrite <- Hcols in Hi.
      destruct (prepare_generation_zone site b d i tso Hprep Hi Hzone) as (Hd1 & Hd2 & Hd3).
      exists tso, b. auto 10.
    - split; discriminate. }
  rewrite List.Forall_forall in HF.
  split; [reflexivity|]. split; [|split; [|split; [|split]]].
  - intros tso. now apply filter_eq_rows.
  - intros r Hr. split.
    + intros (tso & b & Hknown & Hb & Hin).
      destruct (filter_eq_rows "tso_zone" tso df i Hi) as (b' & Hb' & _ & Hrows).
      rewrite Hb in Hb'. injection Hb' as <-. exists tso. split; [exact Hknown|].
      now apply Hrows in Hin.
    + intros (tso & Hknown & Hz).
      destruct (filter_eq_rows "tso_zone" tso df i Hi) as (b & Hb & _ & Hrows).
      exists tso, b. split; [exact Hknown|]. split; [exact Hb|]. now apply Hrows.
  - intros d Hin. now apply (HF _ Hin).
  - intros tso b Hb Hnil ev Hin Hsite.
    destruct (proj1 (HF _ Hin) tso Hsite) as (b' & Hb' & Hne).
    rewrite Hb in Hb'. injection Hb' as <-.
    now apply df_empty_false_rows in Hne.
  - clear HF. intros Hok.
    pose proof (col_index_columns _ _ _ Hi) as Hcols.
    destruct (df_empty df) eqn:Ee.
    + assert (Hrows : rows df = []).
      { unfold df_empty in Ee. destruct (columns df); [congruence|].
        destruct (rows df); [reflexivity|discriminate]. }
      split.
      * intros tso pv b _ Hb Hne. exfalso. apply Hne.
        unfold filter_eq in Hb. rewrite Hi in Hb. injection Hb as <-.
        cbn [rows]. now rewrite Hrows.
      * rewrite Hrows. subst evs.
        unfold save_generation_to_site_db, bind at 1, deref. fold df. rewrite Ee.
        unfold log. cbn [fst]. rewrite (only_logged_new_events w) by (repeat split). reflexivity.
    + subst evs. revert Hok. rewrite (save_generation_run l "de" w Ee). fold df.
      change (country_sites_of "de") with (Ok DE_TSO_SITES).
      cbv iota. destruct (capacity_override_of df) as [ov|e] eqn:Hov; [|discriminate].
      intros Hok. split.
      * destruct (for_each_generation_stores df "de" ov DE_TSO_SITES w Hok)
          as (evs & Ht & Hall).
        rewrite (new_events_app _ _ _ Ht).
        intros tso pv b Hin Hb Hne.
        assert (Hne' : df_empty b = false).
        { unfold filter_eq in Hb. rewrite Hi in Hb. injection Hb as <-.
          unfold df_empty. cbn [columns rows] in *.
          destruct (columns df); [congruence|].
          destruct (List.filter _ (rows df)); [congruence|reflexivity]. }
        destruct (Hall tso pv b Hin Hb Hne') as (site & d & Hc & Hp & Hins & Hk).
        exists ov, site, d. auto.
      * destruct (for_each_generation_steps df "de" ov DE_TSO_SITES w)
          as (evs & Ht & _ & Heq).
        rewrite (new_events_app _ _ _ Ht), rows_inserted_steps, (Heq Hok).
        unfold generation_plan, DE_TSO_SITES. cbn [flat_map].
        rewrite !plan_rows_app, !(site_plan_rows_de ov df i) by exact Hi.
        rewrite <- de_bucket_rows_sum. unfold plan_rows. cbn. lia.
Qed.

End GermanBuckets.

Lemma de_rows_partitioned_by_zone_witness :
  let w := Reference.world_with Reference.sample_generation_de 0 in
  let run := save_generation_to_site_db 0 "de" w in
  let evs := new_events w run.1 in
  run.2 = Ok tt /\
  (forall ev, In ev evs -> event_site ev <> Some "50Hertz") /\
  (forall d, In (EvInsertGeneration d) evs ->
     exists tso, In tso DE_TSO_NAMES /\
                 Forall (fun r => row_cell 2 r = CStr tso) (rows d)) /\
  (exists site d,
     prepare_generation (H := Reference.ref_backend) site
       (mkFrame (columns Reference.sample_generation_de)
          [[CFloat (5 # 2); CTime true 1000; CStr "TenneT"; CInt 7]]) = Ok d /\
     In (EvInsertGeneration d) evs) /\
  rows_inserted evs = 2%nat.
Proof.
  assert (Hnodup : NoDup (columns (heap (Reference.world_with
                                           Reference.sample_generation_de 0) !!! 0%nat))).
  { apply (bool_decide_unpack _). vm_compute. exact I. }
  destruct (de_rows_partitioned_by_zone 0
              (Reference.world_with Reference.sample_generation_de 0) 2 Hnodup eq_refl)
    as (_ & _ & _ & Hins & Hskip & Hret).
  assert (Hok : (save_generation_to_site_db 0 "de"
                   (Reference.world_with Reference.sample_generation_de 0)).2 = Ok tt)
    by (vm_compute; reflexivity).
  destruct (Hret Hok) as [Hall Hcount].
  split; [exact Hok|]. split; [|split; [|split]].
  - apply (Hskip "50Hertz" (mkFrame (columns Reference.sample_generation_de) []));
      reflexivity.
  - intros d Hin. destruct (Hins d Hin) as (tso & b & Hknown & _ & _ & _ & _ & Hrows).
    exists tso. auto.
  - destruct (Hall "TenneT" de_tennet
                (mkFrame (columns Reference.sample_generation_de)
                   [[CFloat (5 # 2); CTime true 1000; CStr "TenneT"; CInt 7]]))
      as (ov & site & d & _ & _ & Hp & Hin & _).
    + do 2 right. left. reflexivity.
    + reflexivity.
    + discriminate.
    + exists site, d. auto.
  - exact Hcount.
Defined.

(** ** Generation save: the prepared frame and the input errors *)

Section GenerationEdges.
Context {St : Type} `{Backend St}.

Lemma for_each_single {A} (x : A) (body : A -> M St unit) (w : World St) :
  for_each [x] body w = body x w.
Proof.
  cbn [for_each]. unfold bind, ret. now destruct (body x w) as [w' [[]|e]].
Qed.

Lemma row_cell_insert_eq k c (r : list cell) :
  (k < length r)%nat -> row_cell k (<[k:=c]> r) = c.
Proof.
  unfold row_cell. revert k. induction r as [|x xs IH]; intros [|k] Hlt; simpl in *;
    try lia; [reflexivity|]. apply IH. lia.
Qed.

Lemma col_index_app_new name cols :
  col_index name cols = None -> col_index name (cols ++ [name]) = Some (length cols).
Proof.
  induction cols as [|c cs IH]; simpl.
  - now rewrite String.eqb_refl.
  - destruct (String.eqb c name); [discriminate|].
    destruct (col_index name cs); [discriminate|]. intros _. now rewrite IH.
Qed.

Lemma generation_rename_not_domain c :
  rename_label generation_renames c <> "solar_generation_kw" /\
  rename_label generation_renames c <> "target_datetime_utc".
Proof.
  cbn [rename_label generation_renames].
  destruct (String.eqb "solar_generation_kw" c) eqn:E1; [split; discriminate|].
  destruct (String.eqb "target_datetime_utc" c) eqn:E2; [split; discriminate|].
  apply String.eqb_neq in E1, E2. split; congruence.
Qed.

(** X5. The frame prepared for the generation store (from a rectangular
    bucket) carries a [site_uuid] column whose every cell is the resolved
    site's identifier, has as many rows as the bucket, has a [start_utc]
    column and no column under either of the two domain labels. *)
Theorem prepare_generation_stamps site b d :
  rectangular b ->
  prepare_generation site b = Ok d ->
  (exists j, col_index "site_uuid" (columns d) = Some j /\
             Forall (fun r => row_cell j r = CStr (location_uuid site)) (rows d)) /\
  length (rows d) = length (rows b) /\
  In "start_utc" (columns d) /\
  ~ In "solar_generation_kw" (columns d) /\
  ~ In "target_datetime_utc" (columns d).
Proof.
  intros Hrect Hp. pose proof (prepare_generation_length _ _ _ Hp) as Hlen.
  apply prepare_generation_inv in Hp as (k & start_dt & Hk & _ & _ & ->).
  set (cols := map (rename_label generation_renames) (columns b)) in *.
  assert (Hrect' : Forall (fun r => length r = length cols)
                     (zip_with_cells (fun r c => <[k:=c]> r) (rows b) start_dt)).
  { apply zip_with_cells_Forall.
    - intros r c Hr. now rewrite length_insert.
    - unfold cols. rewrite length_map. exact Hrect. }
  assert (Hnot : forall c, In c cols ->
                   c <> "solar_generation_kw" /\ c <> "target_datetime_utc").
  { intros c Hc. unfold cols in Hc. apply in_map_iff in Hc as (c0 & <- & _).
    apply generation_rename_not_domain. }
  unfold setitem_scalar in *. cbn [columns rows] in *.
  destruct (col_index "site_uuid" cols) as [k'|] eqn:Ek'; cbn [columns rows] in *.
  - split; [|split; [exact Hlen|split; [eapply col_index_In; eauto|]]].
    + exists k'. split; [exact Ek'|]. apply List.Forall_map.
      eapply List.Forall_impl; [|exact Hrect']. intros r Hr. cbv beta.
      apply row_cell_insert_eq. rewrite Hr. now apply col_index_Some in Ek'.
    + split; intros Hin; apply Hnot in Hin; tauto.
  - split; [|split; [exact Hlen|split]].
    + exists (length cols). split; [now apply col_index_app_new|].
      apply List.Forall_map. eapply List.Forall_impl; [|exact Hrect'].
      intros r Hr. cbv beta. unfold row_cell. rewrite <- Hr. apply nth_middle.
    + apply in_or_app. left. eapply col_index_In; eauto.
    + split; intros Hin; apply in_app_or in Hin as [Hin|[Hin|[]]];
        try discriminate; apply Hnot in Hin; tauto.
Qed.

Lemma numeric_max_all_missing col :
  Forall (fun c => c = CNull) col -> numeric_max col = Ok None.
Proof.
  induction 1 as [|c cs -> _ IH]; simpl; [reflexivity|]. now rewrite IH.
Qed.

Lemma series_max_all_missing col :
  Forall (fun c => c = CNull) col -> series_max col = Ok (MaxNumber None).
Proof.
  intros Hnull. unfold series_max. rewrite (numeric_max_all_missing col Hnull).
  destruct Hnull as [|c cs -> _]; reflexivity.
Qed.

(** X6. When the capacity column holds missing values only, generation save
    (non-empty table, accepted country) raises the [ValueError] of
    [int(nan)] with the world exactly as before: no site was looked up or
    created, nothing was inserted or committed. *)
Theorem generation_capacity_all_missing l country sites col (w : World St) :
  let df := heap w !!! l in
  df_empty df = false ->
  country_sites_of country = Ok sites ->
  getitem "capacity_kw" df = Ok col ->
  Forall (fun c => c = CNull) col ->
  save_generation_to_site_db l country w
  = (w, Raise (ValueError "cannot convert float NaN to integer")).
Proof.
  intros df Hne Hsites Hcol Hnull.
  rewrite (save_generation_run l country w Hne), Hsites. fold df.
  unfold capacity_override_of, has_column. unfold getitem in Hcol.
  destruct (col_index "capacity_kw" (columns df)) as [i|] eqn:Ei; [|discriminate].
  unfold getitem. rewrite Ei. injection Hcol as <-.
  cbn [result_bind]. now rewrite (series_max_all_missing _ Hnull).
Qed.

(** X7. German generation save on a non-empty table without a [tso_zone]
    column raises [KeyError] on that label with the world exactly as
    before: the first bucket cannot be built and no site is resolved. *)
Theorem de_generation_needs_zone_column l ov (w : World St) :
  let df := heap w !!! l in
  df_empty df = false ->
  capacity_override_of df = Ok ov ->
  ~ In "tso_zone" (columns df) ->
  save_generation_to_site_db l "de" w = (w, Raise (KeyError "tso_zone")).
Proof.
  intros df Hne Hov Hno.
  rewrite (save_generation_run l "de" w Hne). fold df. rewrite Hov.
  change (country_sites_of "de") with (Ok DE_TSO_SITES).
  unfold DE_TSO_SITES. cbn [for_each]. unfold bind.
  rewrite save_generation_site_run.
  change (bucket_of "de" "TransnetBW" df) with (filter_eq "tso_zone" "TransnetBW" df).
  unfold filter_eq. apply col_index_None in Hno. now rewrite Hno.
Qed.

Lemma generation_rename_no_start cols :
  ~ In "start_utc" cols -> ~ In "target_datetime_utc" cols ->
  col_index "start_utc" (map (rename_label generation_renames) cols) = None.
Proof.
  intros H1 H2. apply col_index_None. intros Hin.
  apply in_map_iff in Hin as (c & Hc & Hin). revert Hc.
  cbn [rename_label generation_renames].
  destruct (String.eqb "solar_generation_kw" c) eqn:E1; [discriminate|].
  destruct (String.eqb "target_datetime_utc" c) eqn:E2.
  - apply String.eqb_eq in E2. congruence.
  - congruence.
Qed.

(** X8. Dutch generation save on a non-empty table that has neither a
    [target_datetime_utc] nor a [start_utc] column fails only after the
    site directory was consulted: the run resolves the national site (and
    creates it when absent), then raises; nothing is inserted or
    committed.  When the resolution returned a site the exception is the
    [KeyError] on [start_utc]. *)
Theorem nl_generation_needs_time_column l ov (w : World St) :
  let df := heap w !!! l in
  let run := save_generation_to_site_db l "nl" w in
  df_empty df = false ->
  capacity_override_of df = Ok ov ->
  ~ In "start_utc" (columns df) ->
  ~ In "target_datetime_utc" (columns df) ->
  steps (new_events w run.1) = [SResolve nl_national "nl" ov] /\
  (exists e, run.2 = Raise e) /\
  (forall site, (get_or_create_pvsite nl_national "nl" ov w).2 = Ok site ->
     run.2 = Raise (KeyError "start_utc")).
Proof.
  intros df run Hne Hov H1 H2.
  assert (Hprep : forall site, prepare_generation site df = Raise (KeyError "start_utc")).
  { intros site. unfold prepare_generation, getitem, rename_columns. cbn [columns].
    now rewrite generation_rename_no_start. }
  assert (Hrun : run =
            match (get_or_create_pvsite nl_national "nl" ov w).2 with
            | Ok _ => ((get_or_create_pvsite nl_national "nl" ov w).1,
                       Raise (KeyError "start_utc"))
            | Raise e => ((get_or_create_pvsite nl_national "nl" ov w).1, Raise e)
            end).
  { unfold run. rewrite (save_generation_run l "nl" w Hne). fold df. rewrite Hov.
    change (country_sites_of "nl") with (Ok [("nl_national", nl_national)]).
    cbn iota. rewrite for_each_single, save_generation_site_run.
    change (bucket_of "nl" "nl_national" df) with (Ok (A := DataFrame) df).
    cbn iota. rewrite Hne. cbv zeta.
    destruct (get_or_create_pvsite nl_national "nl" ov w) as [w1 [site|e]]; cbn [fst snd];
      [now rewrite Hprep|reflexivity]. }
  rewrite Hrun. clear Hrun.
  destruct (get_or_create_steps nl_national "nl" ov w) as (pre & Hpre & Hsteps).
  destruct (get_or_create_pvsite nl_national "nl" ov w) as [w1 [site|e]]; cbn [fst snd] in *;
    rewrite (new_events_app w w1 pre Hpre).
  - split; [exact Hsteps|]. split; [eauto|]. reflexivity.
  - split; [exact Hsteps|]. split; [eauto|]. discriminate.
Qed.

End GenerationEdges.

(** ** Forecast-table save: what reaches the store, and failures *)

Section ForecastEdges.
Context {St : Type} `{Backend St}.

(** A run that reached the forecast store, with its run metadata. *)
Lemma forecast_insert_meta l tag ver country (w : World St) values meta mn mv :
  In (EvInsertForecast values meta mn mv)
     (new_events w (save_forecasts_to_site_db l tag ver country w).1) ->
  exists site now,
    (get_or_create_pvsite nl_national "nl" None w).2 = Ok site /\
    meta = mkForecastMeta (location_uuid site) (floor_15min now) ver /\
    mn = tag /\ mv = ver /\
    reshape_forecast (floor_15min now)
      (rename_columns forecast_renames (heap w !!! l)) = Ok values.
Proof.
  destruct (String.eqb country "nl") eqn:Ec.
  2:{ apply String.eqb_neq in Ec.
      rewrite (save_forecasts_unsupported l tag ver country w Ec). cbn [fst].
      unfold new_events. rewrite drop_all. intros []. }
  apply String.eqb_eq in Ec. subst country.
  rewrite save_forecasts_run. cbv zeta.
  destruct (get_or_create_site_events nl_national "nl" None w) as (pre & Hpre & Fpre).
  cbn [client_site_name nl_national] in Fpre.
  assert (Hno : ~ In (EvInsertForecast values meta mn mv) pre).
  { intros Hin. rewrite List.Forall_forall in Fpre. now specialize (Fpre _ Hin). }
  destruct (get_or_create_pvsite nl_national "nl" None w) as [w1 [site|e]];
    cbn [fst snd] in *.
  - destruct (timestamp_now_utc (store w1)) as [s2 now]. cbn [fst snd].
    destruct (reshape_forecast _ _) as [values'|e] eqn:Er; cbn [fst snd trace].
    + rewrite Hpre, <- app_assoc, new_events_mk.
      intros Hin. apply in_app_or in Hin as [Hin|[Hin|[Hin|[]]]];
        [contradiction|discriminate|].
      injection Hin as <- <- <- <-. exists site, now. auto.
    + rewrite Hpre, <- app_assoc, new_events_mk.
      intros Hin. apply in_app_or in Hin as [Hin|[Hin|[]]];
        [contradiction|discriminate].
  - rewrite (new_events_app w _ pre Hpre). contradiction.
Qed.

(** X9. The table handed to the forecast store has exactly the four
    columns power, start, end, horizon, in this order, and one row per row
    of the caller's table with the caller's power value; no other column
    of the caller reaches the store.  The run metadata names the resolved
    site and the model version, and the model tag and version are passed
    on as given. *)
Theorem forecast_values_shape l tag ver country (w : World St) values meta mn mv :
  let df := heap w !!! l in
  let evs := new_events w (save_forecasts_to_site_db l tag ver country w).1 in
  NoDup (map (rename_label forecast_renames) (columns df)) ->
  In (EvInsertForecast values meta mn mv) evs ->
  columns values = ["forecast_power_kw"; "start_utc"; "end_utc"; "horizon_minutes"] /\
  length (rows values) = length (rows df) /\
  (exists ip,
     col_index "forecast_power_kw" (map (rename_label forecast_renames) (columns df))
       = Some ip /\
     Forall2 (fun rin rout => length rout = 4%nat /\ row_cell 0 rout = row_cell ip rin)
       (rows df) (rows values)) /\
  mn = tag /\ mv = ver /\ meta_forecast_version meta = ver /\
  (exists site, (get_or_create_pvsite nl_national "nl" None w).2 = Ok site /\
                meta_location_uuid meta = location_uuid site).
Proof.
  intros df evs _ Hin.
  destruct (forecast_insert_meta _ _ _ _ _ _ _ _ _ Hin)
    as (site & now & Hsite & -> & -> & -> & Hre).
  destruct (reshape_forecast_inv _ _ _ Hre) as (ip & i & Hip & _ & Hcols & Hrows).
  cbn [rename_columns rows columns] in *.
  split; [exact Hcols|]. split; [symmetry; eapply Forall2_length; eauto|].
  split; [|repeat split; eauto].
  exists ip. split; [exact Hip|].
  eapply Forall2_impl; [exact Hrows|].
  intros rin rout (e & h & _ & _ & ->). split; reflexivity.
Qed.

Lemma reshape_forecast_missing ts df :
  ~ In "forecast_power_kw" (columns df) \/ ~ In "start_utc" (columns df) ->
  exists missing,
    reshape_forecast ts df
    = Raise (KeyError (pd_not_in_index ["forecast_power_kw"; "start_utc"] missing)) /\
    (In "start_utc" (columns df) -> missing = ["forecast_power_kw"]) /\
    (In "forecast_power_kw" (columns df) -> missing = ["start_utc"]) /\
    (~ In "forecast_power_kw" (columns df) -> ~ In "start_utc" (columns df) ->
     missing = ["forecast_power_kw"; "start_utc"]).
Proof.
  intros Hmiss. unfold reshape_forecast, select_columns. cbn [result_mapM List.filter].
  destruct (col_index "forecast_power_kw" (columns df)) as [ip|] eqn:Ep;
    destruct (col_index "start_utc" (columns df)) as [i|] eqn:Ei; cbn [result_bind].
  - exfalso. destruct Hmiss as [Hm|Hm]; apply Hm; eapply col_index_In; eauto.
  - apply col_index_In in Ep. apply col_index_None in Ei.
    eexists. split; [reflexivity|]. repeat split; tauto.
  - apply col_index_In in Ei. apply col_index_None in Ep.
    eexists. split; [reflexivity|]. repeat split; tauto.
  - apply col_index_None in Ep, Ei.
    eexists. split; [reflexivity|]. repeat split; tauto.
Qed.

(** X10. When the caller's table lacks the power or the start column (under
    the domain or the storage label), a forecast-table save whose site
    resolution returned a site raises [KeyError], with the message pandas
    makes of the two requested labels and of those among them that are
    missing, and it does so late: the site directory was consulted (the
    site created if absent), the clock was read and the caller's table has
    been renamed in place; nothing reached the forecast store. *)
Theorem forecast_missing_column_fails_late l tag ver site (w : World St) :
  let df := heap w !!! l in
  let renamed := rename_columns forecast_renames df in
  let run := save_forecasts_to_site_db l tag ver "nl" w in
  (get_or_create_pvsite nl_national "nl" None w).2 = Ok site ->
  ~ In "forecast_power_kw" (columns renamed) \/ ~ In "start_utc" (columns renamed) ->
  (exists missing,
     run.2 = Raise (KeyError (pd_not_in_index ["forecast_power_kw"; "start_utc"] missing)) /\
     (In "start_utc" (columns renamed) -> missing = ["forecast_power_kw"]) /\
     (In "forecast_power_kw" (columns renamed) -> missing = ["start_utc"]) /\
     (~ In "forecast_power_kw" (columns renamed) -> ~ In "start_utc" (columns renamed) ->
      missing = ["forecast_power_kw"; "start_utc"])) /\
  heap run.1 !!! l = renamed /\
  (forall values meta mn mv, ~ In (EvInsertForecast values meta mn mv) (new_events w run.1)) /\
  (exists rest t, new_events w run.1 =
     CallGetOrCreate nl_national "nl" None :: EvGetSite "nl_national" "nl_national"
       :: rest ++ [EvNow t]).
Proof.
  intros df renamed run Hsite Hmiss. subst run.
  rewrite save_forecasts_run. cbv zeta. fold df. fold renamed.
  destruct (get_or_create_prefix nl_national "nl" None w) as [rest Hrest].
  destruct (get_or_create_site_events nl_national "nl" None w) as (pre & Hpre & Fpre).
  destruct (get_or_create_pvsite nl_national "nl" None w) as [w1 [site'|e]];
    cbn [fst snd] in *; [|discriminate].
  destruct (timestamp_now_utc (store w1)) as [s2 now]. cbn [fst snd].
  destruct (reshape_forecast_missing (floor_15min now) renamed Hmiss)
    as (missing & Hkey & Hwhich).
  rewrite Hkey. cbn [fst snd heap trace].
  split; [eauto|]. split; [apply lookup_total_insert_eq|]. split.
  - intros values meta mn mv. rewrite Hpre, <- app_assoc, new_events_mk.
    intros Hin. apply in_app_or in Hin as [Hin|[Hin|[]]]; [|discriminate].
    rewrite List.Forall_forall in Fpre. now specialize (Fpre _ Hin).
  - exists rest, now. rewrite Hrest, <- app_assoc, new_events_mk. reflexivity.
Qed.

Lemma forecast_rename_idempotent df :
  rename_columns forecast_renames (rename_columns forecast_renames df)
  = rename_columns forecast_renames df.
Proof.
  unfold rename_columns. cbn [columns rows]. f_equal.
  rewrite map_map. apply map_ext. intros c.
  cbn [rename_label forecast_renames].
  destruct (String.eqb "solar_generation_kw" c) eqn:E1; [reflexivity|].
  destruct (String.eqb "target_datetime_utc" c) eqn:E2; [reflexivity|].
  now rewrite E1, E2.
Qed.

Lemma forecast_heap_cases l tag ver country (w : World St) :
  heap (save_forecasts_to_site_db l tag ver country w).1 = heap w \/
  heap (save_forecasts_to_site_db l tag ver country w).1
  = <[l := rename_columns forecast_renames (heap w !!! l)]> (heap w).
Proof.
  destruct (String.eqb country "nl") eqn:Ec.
  - apply String.eqb_eq in Ec. subst country. rewrite save_forecasts_run. cbv zeta.
    pose proof (get_or_create_heap nl_national "nl" None w) as Hh.
    destruct (get_or_create_pvsite nl_national "nl" None w) as [w1 [site|e]];
      cbn [fst snd] in *; [|now left].
    destruct (reshape_forecast _ _); cbn [fst heap]; now right.
  - apply String.eqb_neq in Ec.
    rewrite (save_forecasts_unsupported l tag ver country w Ec). now left.
Qed.

(** X11. The in-place rename is stable under repetition: after a
    forecast-table save that returned, any further forecast-table save on
    the same table (whatever its tag, version or country, and whether it
    returns or raises) leaves the caller's table as the first call left
    it. *)
Theorem forecast_save_twice_same_table l tag ver tag' ver' country' (w : World St) :
  let first := save_forecasts_to_site_db l tag ver "nl" w in
  let second := save_forecasts_to_site_db l tag' ver' country' first.1 in
  first.2 = Ok tt ->
  heap first.1 !!! l = rename_columns forecast_renames (heap w !!! l) /\
  heap second.1 !!! l = heap first.1 !!! l.
Proof.
  intros first second Hok.
  assert (Hfirst : heap first.1 !!! l = rename_columns forecast_renames (heap w !!! l)).
  { subst first. revert Hok. rewrite save_forecasts_run. cbv zeta.
    destruct (get_or_create_pvsite nl_national "nl" None w) as [w1 [site|e]];
      cbn [fst snd]; [|discriminate].
    destruct (reshape_forecast _ _); cbn [fst snd heap]; [|discriminate].
    intros _. apply lookup_total_insert_eq. }
  split; [exact Hfirst|]. subst second.
  destruct (forecast_heap_cases l tag' ver' country' first.1) as [Hh|Hh]; rewrite Hh.
  - reflexivity.
  - rewrite lookup_total_insert_eq, Hfirst. apply forecast_rename_idempotent.
Qed.

End ForecastEdges.

(** ** Which collaborators an operation talks to *)

Section Collaborators.
Context {St : Type} `{Backend St}.

Lemma emits_now (P : event -> Prop) : (forall t, P (EvNow t)) -> emits P (now_utc (St := St)).
Proof.
  intros HP w. unfold now_utc. destruct (timestamp_now_utc (store w)) as [s t].
  exists [EvNow t]. cbn. auto.
Qed.

(** X12. Each operation keeps to its own collaborators.  Generation save
    calls the site directory, the generation store and the session commit
    only; forecast-table save calls the site directory, the clock and the
    forecast store only, and never commits; forecast-object save makes no
    call but the bulk save of the sequence it was given; CSV export only
    touches the file system. *)
Theorem operations_keep_to_their_collaborators l country tag ver forecasts csv_dir
    (w : World St) :
  Forall (fun ev => is_directory_event ev \/ is_generation_store_event ev)
    (new_events w (save_generation_to_site_db l country w).1) /\
  Forall (fun ev => is_directory_event ev \/ is_forecast_store_event ev)
    (new_events w (save_forecasts_to_site_db l tag ver country w).1) /\
  Forall (fun ev => ev = EvSave forecasts)
    (new_events w (save_forecasts_to_db forecasts w).1) /\
  Forall is_file_event (new_events w (save_forecasts_to_csv l csv_dir w).1).
Proof.
  split; [|split; [|split]].
  - apply save_generation_emits. intros. repeat split; cbn; auto.
  - apply emits_new_events. unfold save_forecasts_to_site_db.
    destruct (negb (String.eqb country "nl")); [apply emits_raise|].
    apply emits_bind; [apply get_or_create_emits; cbn; auto|]. intros site.
    apply emits_bind; [apply emits_now; cbn; auto|]. intros now.
    apply emits_bind; [apply emits_update_frame|]. intros _.
    apply emits_bind; [apply emits_deref|]. intros renamed.
    apply emits_bind; [apply emits_lift|]. intros values.
    apply emits_call. cbn. auto.
  - apply emits_new_events. unfold save_forecasts_to_db.
    destruct forecasts as [|f fs]; [apply emits_log|].
    apply emits_try_except.
    + apply emits_bind; [apply emits_log|]. intros _.
      apply emits_bind; [now apply emits_call|]. intros _. apply emits_log.
    + intros e. apply emits_bind; [apply emits_log|]. intros _. apply emits_raise.
  - apply emits_new_events. unfold save_forecasts_to_csv.
    apply emits_bind; [apply emits_deref|]. intros df.
    destruct (df_empty df); [apply emits_log|].
    destruct (falsy csv_dir); [apply emits_raise|].
    apply emits_bind; [apply emits_call; exact I|]. intros _.
    apply emits_try_except.
    + apply emits_bind; [apply emits_update_frame|]. intros _.
      apply emits_bind; [apply emits_log|]. intros _.
      apply emits_bind; [apply emits_deref|]. intros current.
      apply emits_bind; [apply emits_call; exact I|]. intros _. apply emits_log.
    + intros e. apply emits_bind; [apply emits_log|]. intros _. apply emits_raise.
Qed.

(** X13. On a non-empty sequence forecast-object save is a plain
    delegation: one call of the bulk save with the sequence as given, and
    the outcome of that call is the outcome of the operation, an exception
    being re-raised as it is (after an error log record). *)
Theorem forecast_objects_delegated f fs (w : World St) :
  let forecasts := f :: fs in
  let run := save_forecasts_to_db forecasts w in
  run.2 = (save (store w) forecasts).2 /\
  store run.1 = (save (store w) forecasts).1 /\
  heap run.1 = heap w /\
  new_events w run.1 = [EvSave forecasts] /\
  (forall e, run.2 = Raise e ->
     exists earlier msg, logs run.1 = earlier ++ [(ERROR, msg)]).
Proof.
  cbv zeta. unfold save_forecasts_to_db, try_except, bind, call, log, raise.
  cbn [store heap trace logs].
  destruct (save (store w) (f :: fs)) as [s [[]|e]]; cbn [fst snd store heap trace logs].
  - repeat split; [apply new_events_mk|discriminate].
  - repeat split; [apply new_events_mk|]. intros e' _. eauto.
Qed.

End Collaborators.

(** ** CSV export: failures and repetition *)

Section CsvEdges.
Context {St : Type} `{Backend St}.

(** X14. Failures of the CSV export (non-empty table, directory given).
    When creating the directory raises, the exception propagates, nothing
    is written and the caller's table is untouched.  When the write raises,
    the same exception is re-raised after an error log record, and the
    caller's table has already lost its bookkeeping column. *)
Theorem csv_export_failures l dir (w : World St) :
  let df := heap w !!! l in
  let run := save_forecasts_to_csv l (Some dir) w in
  let written := drop_columns ["_sa_instance_state"] df in
  let path := os_path_join dir "forecast_data.csv" in
  df_empty df = false -> dir <> "" ->
  (forall e, (os_makedirs (store w) dir true).2 = Raise e ->
     run.2 = Raise e /\ heap run.1 = heap w /\
     new_events w run.1 = [EvMakedirs dir true]) /\
  (forall u e, (os_makedirs (store w) dir true).2 = Ok u ->
     (to_csv (os_makedirs (store w) dir true).1 path written false).2 = Raise e ->
     run.2 = Raise e /\ heap run.1 !!! l = written /\
     exists earlier msg, logs run.1 = earlier ++ [(ERROR, msg)]).
Proof.
  intros df run written path Hne Hd. subst run.
  rewrite (save_forecasts_to_csv_run l dir w Hne Hd). cbv zeta.
  fold df. fold written. fold path.
  destruct (os_makedirs (store w) dir true) as [s1 [[]|e1]]; cbn [fst snd].
  - split; [discriminate|]. intros _ e _.
    destruct (to_csv s1 path written false) as [s2 [[]|e2]]; cbn [fst snd heap logs];
      [discriminate|].
    intros [= ->]. split; [reflexivity|]. split; [apply lookup_total_insert_eq|]. eauto.
  - split; [|discriminate]. intros e [= ->].
    split; [reflexivity|]. split; [reflexivity|]. apply new_events_mk.
Qed.

Lemma drop_positions_length {A B} (keep : list bool) (cols : list A) (r : list B) :
  length r = length cols ->
  length (drop_positions keep r) = length (drop_positions keep cols).
Proof.
  revert cols r. induction keep as [|k ks IH]; intros [|c cs] [|x xs]; simpl;
    try discriminate; try reflexivity.
  intros [= Hl]. destruct k; simpl; auto.
Qed.

Lemma drop_columns_rectangular names df :
  rectangular df -> rectangular (drop_columns names df).
Proof.
  unfold rectangular, drop_columns. cbn [columns rows]. intros Hrect.
  apply List.Forall_map. eapply List.Forall_impl; [|exact Hrect].
  intros r Hr. now apply drop_positions_length.
Qed.

(** X15. Exporting twice is harmless: after an export that returned on a
    non-empty rectangular table, a second export of the same table (to any
    directory) leaves the caller's table as the first export left it, and
    if it writes, it writes that very table, again without index. *)
Theorem csv_export_twice l dir csv_dir' (w : World St) :
  let df := heap w !!! l in
  let first := save_forecasts_to_csv l (Some dir) w in
  let second := save_forecasts_to_csv l csv_dir' first.1 in
  df_empty df = false -> rectangular df -> first.2 = Ok tt ->
  heap first.1 !!! l = drop_columns ["_sa_instance_state"] df /\
  heap second.1 = heap first.1 /\
  (forall path frame index, In (EvToCsv path frame index) (new_events first.1 second.1) ->
     frame = drop_columns ["_sa_instance_state"] df /\ index = false).
Proof.
  intros df first second Hne Hrect Hok.
  set (written := drop_columns ["_sa_instance_state"] df).
  assert (Hfirst : heap first.1 = <[l := written]> (heap w)).
  { subst first. revert Hok. destruct (String.eqb dir "") eqn:Hd.
    - rewrite (save_forecasts_to_csv_no_dir l (Some dir) w Hne Hd). discriminate.
    - apply String.eqb_neq in Hd.
      rewrite (save_forecasts_to_csv_run l dir w Hne Hd). cbv zeta.
      destruct (os_makedirs (store w) dir true) as [s1 [[]|e1]]; cbn [fst snd];
        [|discriminate].
      destruct (to_csv s1 _ _ false) as [s2 [[]|e2]]; cbn [fst snd heap];
        [reflexivity|discriminate]. }
  assert (Hl : heap first.1 !!! l = written)
    by (rewrite Hfirst; apply lookup_total_insert_eq).
  assert (Hagain : drop_columns ["_sa_instance_state"] written = written).
  { apply drop_columns_absent; [apply drop_columns_rectangular, Hrect|].
    apply drop_columns_gone. }
  split; [exact Hl|]. subst second.
  destruct (df_empty written) eqn:Hew.
  { rewrite save_forecasts_to_csv_empty by (rewrite Hl; exact Hew).
    cbn [fst heap trace]. split; [reflexivity|].
    intros path frame index. unfold new_events. rewrite drop_all. intros []. }
  destruct (falsy csv_dir') eqn:Hf.
  { rewrite save_forecasts_to_csv_no_dir by (rewrite ?Hl; assumption).
    cbn [fst]. split; [reflexivity|].
    intros path frame index. unfold new_events. rewrite drop_all. intros []. }
  destruct csv_dir' as [dir'|]; [|discriminate]. cbn [falsy] in Hf.
  apply String.eqb_neq in Hf.
  rewrite save_forecasts_to_csv_run by (rewrite ?Hl; assumption).
  cbv zeta. rewrite Hl, Hagain.
  assert (Hsame : <[l := written]> (heap first.1) = heap first.1).
  { rewrite Hfirst. apply insert_insert_eq. }
  destruct (os_makedirs (store first.1) dir' true) as [s1 [[]|e1]]; cbn [fst snd].
  - destruct (to_csv s1 _ written false) as [s2 [[]|e2]]; cbn [fst snd heap trace];
      (split; [exact Hsame|]); rewrite <- app_assoc, new_events_mk;
      intros path frame index [Hin|[Hin|[]]]; try discriminate;
      injection Hin as _ <- <-; auto.
  - cbn [heap trace]. split; [reflexivity|]. rewrite new_events_mk.
    intros path frame index [Hin|[]]. discriminate.
Qed.

End CsvEdges.

(** ** The registry and the capacity table agree *)

Section Registry.
Context {St : Type} `{Backend St}.

(** X16. Every site of the registry of an accepted country is keyed by its
    own client site name and has a capacity under every override, so that
    resolving it never fails on the capacity table: the resolution returns
    the site found by the lookup, or else exactly the outcome of
    [create_site]. *)
Theorem registry_sites_resolve country sites tso pv ov (w : World St) :
  let name := client_site_name pv in
  let lookup := get_site_by_client_site_name (store w) name name in
  country_sites_of country = Ok sites ->
  In (tso, pv) sites ->
  name = tso /\
  exists capacity,
    choose_capacity pv country ov = Ok capacity /\
    (get_or_create_pvsite pv country ov w).2 =
      match lookup.2 with
      | Ok site => Ok site
      | Raise _ => (create_site lookup.1 (create_site_args pv country capacity)).2
      end.
Proof.
  intros name lookup Hsites Hin. subst name lookup.
  assert (Hreg : client_site_name pv = tso /\
                 exists capacity, choose_capacity pv country ov = Ok capacity).
  { unfold country_sites_of in Hsites.
    destruct (String.eqb country "nl") eqn:Enl.
    - injection Hsites as <-. destruct Hin as [[= <- <-]|[]].
      split; [reflexivity|]. unfold choose_capacity.
      destruct ov; [eauto|].
      apply String.eqb_eq in Enl. subst country. cbn. eauto.
    - destruct (String.eqb country "de") eqn:Ede; [|discriminate].
      injection Hsites as <-. unfold choose_capacity. rewrite Ede.
      destruct Hin as [E|[E|[E|[E|[]]]]]; injection E as <- <-;
        (split; [reflexivity|]); destruct ov; eauto; cbn; eauto. }
  destruct Hreg as [Hname [capacity Hcap]]. split; [exact Hname|].
  exists capacity. split; [exact Hcap|].
  destruct (get_site_by_client_site_name (store w) (client_site_name pv) (client_site_name pv))
    as [s1 [site|e]] eqn:Eg; cbn [fst snd].
  - now rewrite (get_or_create_found _ _ _ _ _ _ Eg).
  - now rewrite (get_or_create_created _ _ _ _ _ _ _ Eg Hcap).
Qed.

End Registry.

(** ** The properties above on sample runs *)

Lemma generation_steps_follow_plan_witness :
  let w := Reference.world_with Reference.sample_generation_de 0 in
  steps (new_events w (save_generation_to_site_db 0 "de" w).1)
  = [SResolve de_tennet "de" (Some 99%Z); SInsert 1; SCommit;
     SResolve de_amprion "de" (Some 99%Z); SInsert 1; SCommit].
Proof.
  destruct (generation_steps_follow_plan 0 "de" DE_TSO_SITES (Some 99%Z)
              (Reference.world_with Reference.sample_generation_de 0)
              eq_refl eq_refl eq_refl) as [_ Heq].
  cbv zeta. rewrite Heq; reflexivity.
Defined.

Lemma nl_generation_is_one_bucket_witness :
  let w := Reference.world_with Reference.sample_generation_de 0 in
  steps (new_events w (save_generation_to_site_db 0 "nl" w).1)
  = [SResolve nl_national "nl" (Some 99%Z); SInsert 3; SCommit].
Proof.
  exact (nl_generation_is_one_bucket 0 (Some 99%Z)
           (Reference.world_with Reference.sample_generation_de 0)
           eq_refl eq_refl eq_refl).
Defined.

Lemma de_stores_every_known_row_witness :
  let w := Reference.world_with Reference.sample_generation_de 0 in
  rows_inserted (new_events w (save_generation_to_site_db 0 "de" w).1) = 2%nat /\
  length (rows Reference.sample_generation_de) = 3%nat.
Proof.
  split; [|reflexivity].
  exact (de_stores_every_known_row 0 (Some 99%Z) 2
           (Reference.world_with Reference.sample_generation_de 0)
           eq_refl eq_refl eq_refl eq_refl).
Defined.

Lemma prepare_generation_stamps_witness :
  let site := mkSite "uuid-nl_national" "nl_national" "nl" 20000000 in
  exists d,
    prepare_generation (H := Reference.ref_backend) site Reference.sample_generation_de
      = Ok d /\
    exists j, col_index "site_uuid" (columns d) = Some j /\
              Forall (fun r => row_cell j r = CStr "uuid-nl_national") (rows d).
Proof.
  eexists. split; [vm_compute; reflexivity|].
  refine (proj1 (prepare_generation_stamps (H := Reference.ref_backend)
                   (mkSite "uuid-nl_national" "nl_national" "nl" 20000000)
                   Reference.sample_generation_de _ _ _)).
  - repeat constructor.
  - vm_compute. reflexivity.
Defined.

Lemma generation_capacity_all_missing_witness :
  let w := Reference.world_with Reference.sample_missing_capacity 0 in
  save_generation_to_site_db 0 "nl" w
  = (w, Raise (ValueError "cannot convert float NaN to integer")).
Proof.
  refine (generation_capacity_all_missing 0 "nl" _ [CNull; CNull]
            (Reference.world_with Reference.sample_missing_capacity 0) _ _ _ _).
  - reflexivity.
  - reflexivity.
  - reflexivity.
  - repeat constructor.
Defined.

Lemma de_generation_needs_zone_column_witness :
  let w := Reference.world_with Reference.sample_forecast 0 in
  save_generation_to_site_db 0 "de" w = (w, Raise (KeyError "tso_zone")).
Proof.
  refine (de_generation_needs_zone_column 0 None
            (Reference.world_with Reference.sample_forecast 0) _ _ _).
  - reflexivity.
  - reflexivity.
  - apply col_index_None. reflexivity.
Defined.

Lemma nl_generation_needs_time_column_witness :
  let w := Reference.world_with Reference.sample_csv 0 in
  let run := save_generation_to_site_db 0 "nl" w in
  steps (new_events w run.1) = [SResolve nl_national "nl" None] /\
  run.2 = Raise (KeyError "start_utc") /\
  In (EvCreateSite (create_site_args nl_national "nl" 20000000)) (new_events w run.1).
Proof.
  destruct (nl_generation_needs_time_column 0 None
              (Reference.world_with Reference.sample_csv 0))
    as (Hsteps & _ & Hkey).
  - reflexivity.
  - reflexivity.
  - apply col_index_None. reflexivity.
  - apply col_index_None. reflexivity.
  - split; [exact Hsteps|]. split.
    + eapply Hkey. vm_compute. reflexivity.
    + vm_compute. right. right. left. reflexivity.
Defined.

Lemma forecast_values_shape_witness :
  let w := Reference.world_with Reference.sample_forecast 1000000000000 in
  In (EvInsertForecast Reference.sample_forecast_values Reference.sample_forecast_meta
        "model" "1.0")
     (new_events w (save_forecasts_to_site_db 0 "model" "1.0" "nl" w).1) /\
  length (rows Reference.sample_forecast_values) = length (rows Reference.sample_forecast) /\
  ~ In "_sa_instance_state" (columns Reference.sample_forecast_values).
Proof.
  assert (Hin : In (EvInsertForecast Reference.sample_forecast_values
                      Reference.sample_forecast_meta "model" "1.0")
                  (new_events (Reference.world_with Reference.sample_forecast 1000000000000)
                     (save_forecasts_to_site_db 0 "model" "1.0" "nl"
                        (Reference.world_with Reference.sample_forecast 1000000000000)).1)).
  { vm_compute. do 4 right. left. reflexivity. }
  assert (Hnodup : NoDup (map (rename_label forecast_renames)
                            (columns (heap (Reference.world_with Reference.sample_forecast
                                              1000000000000) !!! 0%nat)))).
  { apply (bool_decide_unpack _). vm_compute. exact I. }
  destruct (forecast_values_shape 0 "model" "1.0" "nl" _ _ _ _ _ Hnodup Hin)
    as (Hcols & Hlen & _).
  split; [exact Hin|]. split; [exact Hlen|].
  rewrite Hcols. intros [E|[E|[E|[E|[]]]]]; discriminate.
Defined.

Lemma forecast_missing_column_fails_late_witness :
  let w := Reference.world_with Reference.sample_csv 0 in
  let run := save_forecasts_to_site_db 0 "model" "1.0" "nl" w in
  run.2 = Raise (KeyError "['start_utc'] not in index") /\
  heap run.1 !!! 0%nat = Reference.sample_csv /\
  In (EvCreateSite (create_site_args nl_national "nl" 20000000)) (new_events w run.1).
Proof.
  destruct (forecast_missing_column_fails_late 0 "model" "1.0"
              (mkSite "uuid-nl_national" "nl_national" "nl" 20000000)
              (Reference.world_with Reference.sample_csv 0))
    as ((missing & Hkey & _ & Hstart & _) & Hheap & _).
  - vm_compute. reflexivity.
  - right. apply col_index_None. reflexivity.
  - split; [|split; [exact Hheap|]].
    + rewrite Hkey, Hstart; [reflexivity|]. right. left. reflexivity.
    + vm_compute. right. right. left. reflexivity.
Defined.

Lemma forecast_save_twice_same_table_witness :
  let w := Reference.world_with Reference.sample_forecast 1000000000000 in
  let first := save_forecasts_to_site_db 0 "model" "1.0" "nl" w in
  let second := save_forecasts_to_site_db 0 "model" "1.1" "nl" first.1 in
  second.2 = Ok tt /\ heap second.1 !!! 0%nat = heap first.1 !!! 0%nat.
Proof.
  split; [vm_compute; reflexivity|].
  refine (proj2 (forecast_save_twice_same_table 0 "model" "1.0" "model" "1.1" "nl"
                   (Reference.world_with Reference.sample_forecast 1000000000000) _)).
  vm_compute. reflexivity.
Defined.

Lemma csv_export_failures_witness :
  (let w := Faulty.world_with Reference.sample_csv false in
   let run := save_forecasts_to_csv 0 (Some "out") w in
   run.2 = Raise (OtherError "PermissionError") /\ heap run.1 = heap w) /\
  (let w := Faulty.world_with Reference.sample_csv true in
   let run := save_forecasts_to_csv 0 (Some "out") w in
   run.2 = Raise (OtherError "OSError") /\
   heap run.1 !!! 0%nat = mkFrame ["forecast_power_kw"] [[CInt 3]]).
Proof.
  split; cbv zeta.
  - destruct (csv_export_failures 0 "out" (Faulty.world_with Reference.sample_csv false))
      as [Hmk _]; [reflexivity|discriminate|].
    destruct (Hmk (OtherError "PermissionError") eq_refl) as (Hr & Hh & _). auto.
  - destruct (csv_export_failures 0 "out" (Faulty.world_with Reference.sample_csv true))
      as [_ Hwr]; [reflexivity|discriminate|].
    destruct (Hwr tt (OtherError "OSError") eq_refl eq_refl) as (Hr & Hh & _).
    split; [exact Hr|]. rewrite Hh. reflexivity.
Defined.

Lemma csv_export_twice_witness :
  let w := Reference.world_with Reference.sample_csv 0 in
  let first := save_forecasts_to_csv 0 (Some "out") w in
  let second := save_forecasts_to_csv 0 (Some "elsewhere/") first.1 in
  heap second.1 = heap first.1 /\
  In (EvToCsv "elsewhere/forecast_data.csv" (mkFrame ["forecast_power_kw"] [[CInt 3]]) false)
     (new_events first.1 second.1).
Proof.
  destruct (csv_export_twice 0 "out" (Some "elsewhere/")
              (Reference.world_with Reference.sample_csv 0))
    as (_ & Hheap & _).
  - reflexivity.
  - repeat constructor.
  - vm_compute. reflexivity.
  - split; [exact Hheap|]. vm_compute. right. left. reflexivity.
Defined.

Lemma registry_sites_resolve_witness :
  let w := Reference.world_with (mkFrame [] []) 0 in
  (get_or_create_pvsite de_amprion "de" None w).2
  = Ok (mkSite "uuid-Amprion" "Amprion" "de" 16506000).
Proof.
  destruct (registry_sites_resolve "de" DE_TSO_SITES "Amprion" de_amprion None
              (Reference.world_with (mkFrame [] []) 0) eq_refl)
    as (_ & capacity & Hcap & Hrun).
  - simpl. tauto.
  - cbv zeta in *. rewrite Hrun. injection Hcap as <-. reflexivity.
Defined.

(** ** What gets created *)

Section CreatedSites.
Context {St : Type} `{Backend St}.

Lemma registry_site_name country sites tso pv :
  country_sites_of country = Ok sites -> In (tso, pv) sites ->
  client_site_name pv = tso.
Proof.
  unfold country_sites_of. destruct (String.eqb country "nl").
  - intros [= <-] [[= <- <-]|[]]. reflexivity.
  - destruct (String.eqb country "de"); [|discriminate].
    intros [= <-] Hin. now apply de_site_names in Hin.
Qed.

(** X17. Whatever the public operations create is a site of the static
    registry, created with the registry's coordinates, client site id 1,
    empty [dno] and [gsp], and the country of the call.  Generation save
    creates only sites of its country's registry; forecast-table save
    creates only the Dutch national site, with the flat 20,000,000 kW
    since it passes no override. *)
Theorem created_sites_come_from_registry l country tag ver (w : World St) args :
  (In (EvCreateSite args) (new_events w (save_generation_to_site_db l country w).1) ->
   exists sites tso pv capacity,
     country_sites_of country = Ok sites /\ In (tso, pv) sites /\
     args = {| arg_latitude := latitude pv;
               arg_longitude := longitude pv;
               arg_client_site_name := tso;
               arg_client_site_id := 1;
               arg_country := country;
               arg_capacity_kw := capacity;
               arg_dno := "";
               arg_gsp := "" |}) /\
  (In (EvCreateSite args) (new_events w (save_forecasts_to_site_db l tag ver country w).1) ->
   args = {| arg_latitude := "52.15";
             arg_longitude := "5.23";
             arg_client_site_name := "nl_national";
             arg_client_site_id := 1;
             arg_country := "nl";
             arg_capacity_kw := 20000000;
             arg_dno := "";
             arg_gsp := "" |}).
Proof.
  split.
  - intros Hin.
    assert (HF : Forall
      (fun ev => forall a, ev = EvCreateSite a ->
         exists sites tso pv capacity,
           country_sites_of country = Ok sites /\ In (tso, pv) sites /\
           a = create_site_args pv country capacity /\ client_site_name pv = tso)
      (new_events w (save_generation_to_site_db l country w).1)).
    { apply save_generation_emits.
      intros sites ov tso pv b _ Hsites Hsite _ _ _.
      pose proof (registry_site_name country sites tso pv Hsites Hsite) as Hname.
      repeat split; try discriminate.
      intros capacity _ a [= <-]. exists sites, tso, pv, capacity. auto. }
    rewrite List.Forall_forall in HF.
    destruct (HF _ Hin args eq_refl) as (sites & tso & pv & capacity & Hs & Hi & -> & <-).
    exists sites, (client_site_name pv), pv, capacity. auto.
  - intros Hin.
    assert (HF : Forall
      (fun ev => forall a, ev = EvCreateSite a ->
                           a = create_site_args nl_national "nl" 20000000)
      (new_events w (save_forecasts_to_site_db l tag ver country w).1)).
    { apply emits_new_events. unfold save_forecasts_to_site_db.
      destruct (String.eqb country "nl") eqn:Ec; [|apply emits_raise].
      apply String.eqb_eq in Ec. subst country. cbn [negb].
      apply emits_bind.
      { apply get_or_create_emits; try discriminate.
        intros capacity [= <-] a [= <-]. reflexivity. }
      intros site.
      apply emits_bind; [apply emits_now; discriminate|]. intros now.
      apply emits_bind; [apply emits_update_frame|]. intros _.
      apply emits_bind; [apply emits_deref|]. intros renamed.
      apply emits_bind; [apply emits_lift|]. intros values.
      apply emits_call. discriminate. }
    rewrite List.Forall_forall in HF. exact (HF _ Hin args eq_refl).
Qed.

End CreatedSites.

Lemma created_sites_come_from_registry_witness :
  let w := Reference.world_with Reference.sample_generation_de 0 in
  In (EvCreateSite (create_site_args de_tennet "de" 99))
     (new_events w (save_generation_to_site_db 0 "de" w).1) /\
  exists pv, In ("TenneT", pv) DE_TSO_SITES.
Proof.
  assert (Hin : In (EvCreateSite (create_site_args de_tennet "de" 99))
                  (new_events (Reference.world_with Reference.sample_generation_de 0)
                     (save_generation_to_site_db 0 "de"
                        (Reference.world_with Reference.sample_generation_de 0)).1)).
  { vm_compute. right. right. left. reflexivity. }
  split; [exact Hin|].
  destruct (proj1 (created_sites_come_from_registry 0 "de" "model" "1.0"
                     (Reference.world_with Reference.sample_generation_de 0) _) Hin)
    as (sites & tso & pv & capacity & Hs & Hi & Hargs).
  injection Hs as <-. apply (f_equal arg_client_site_name) in Hargs.
  cbn in Hargs. subst tso. exists pv. exact Hi.
Defined.
